(** * docx-parser-api: the DOCX to sectioned-HTML conversion of [app.py]

    A shallow embedding of [run_to_html], [detect_list_type],
    [para_to_html], [wrap_list] and [docx_to_html_sections], followed by
    the properties of the specification that were checked against them.

    Conventions of the embedding.
    - A Python [str] is a list of Unicode code points ([list N]); the
      literals of the source are ASCII and are written with [py].
    - The objects handed out by python-docx are modelled by exactly the
      observations the source makes on them (attribute reads, truthiness,
      subscripting, string formatting).
    - A subscript on a [dict] with a missing key raises [KeyError]; the
      functions that can raise live in the error monad [exc].
    - The attribute reads of python-docx are taken to succeed and their
      values are data of the document.  The exceptions python-docx itself
      raises on unusual markup (the read of [run.font.size] at line 45 on
      a malformed size, [para.style.name.lower()] at line 65 on a style
      without a name) are outside the model; so are the addresses that
      the formatted text of its objects carries.  The properties below
      are therefore stated about conversions that return, or about the
      [KeyError] of line 19. *)

From stdpp Require Import gmap list strings.
From Stdlib Require Import NArith ZArith Lia.

Local Open Scope N_scope.
Local Open Scope list_scope.

(** ** Python strings *)

Module PyStr.

Abbreviation str := (list N).

(** The ASCII literal [s] as a [str]. *)
Fixpoint py (s : string) : str :=
  match s with
  | EmptyString => []
  | String a r => Ascii.N_of_ascii a :: py r
  end.

Arguments py : simpl never.

(** The double quote, U+0022. *)
Definition dq : str := [34].

(** [c.isspace()] for a single code point: the white-space table of
    CPython ([_PyUnicode_IsWhitespace]). *)
Definition isspace (c : N) : bool :=
  ((9 <=? c) && (c <=? 13)) || ((28 <=? c) && (c <=? 32))
  || (c =? 133) || (c =? 160) || (c =? 5760)
  || ((8192 <=? c) && (c <=? 8202))
  || (c =? 8232) || (c =? 8233) || (c =? 8239) || (c =? 8287)
  || (c =? 12288).

Fixpoint lstrip (s : str) : str :=
  match s with
  | [] => []
  | c :: r => if isspace c then lstrip r else s
  end.

Definition rstrip (s : str) : str := rev (lstrip (rev s)).

(** [s.strip()] *)
Definition strip (s : str) : str := rstrip (lstrip s).

(** Truthiness of a [str]: non-empty. *)
Definition nonempty {A} (l : list A) : bool :=
  match l with [] => false | _ :: _ => true end.

Fixpoint str_eqb (a b : str) : bool :=
  match a, b with
  | [], [] => true
  | x :: a', y :: b' => (x =? y) && str_eqb a' b'
  | _, _ => false
  end.

(** [s.startswith(p)] *)
Fixpoint startswith (p s : str) : bool :=
  match p, s with
  | [], _ => true
  | x :: p', y :: s' => (x =? y) && startswith p' s'
  | _ :: _, [] => false
  end.

(** [sub in s] *)
Fixpoint contains (sub s : str) : bool :=
  startswith sub s ||
  match s with
  | [] => false
  | _ :: r => contains sub r
  end.

(** [s.replace(c, new)] for a one-character [c]. *)
Definition replace (c : N) (new : str) (s : str) : str :=
  flat_map (fun x => if x =? c then new else [x]) s.

(** [s.split(c)] for a one-character separator: always at least one piece. *)
Fixpoint split (c : N) (s : str) : list str :=
  match s with
  | [] => [[]]
  | x :: r =>
      if x =? c then [] :: split c r
      else match split c r with
           | [] => [[x]]
           | piece :: rest => (x :: piece) :: rest
           end
  end.

(** [sep.join(parts)] *)
Fixpoint join (sep : str) (parts : list str) : str :=
  match parts with
  | [] => []
  | [p] => p
  | p :: rest => p ++ sep ++ join sep rest
  end.

(** [s.lower()], on the ASCII capitals.  The only code points whose
    Unicode lower-casing yields one of the letters of the words searched
    for in a lower-cased string by the source (bullet, number) are the
    ASCII capitals, so membership of those words is the same as with the
    full Unicode mapping. *)
Definition lower_char (c : N) : N :=
  if (65 <=? c) && (c <=? 90) then c + 32 else c.

Definition lower (s : str) : str := map lower_char s.

End PyStr.
Export PyStr.

(** ** Exceptions *)

Inductive PyError : Type :=
| KeyError (key : str).

Inductive exc (A : Type) : Type :=
| Ok (a : A)
| Raise (e : PyError).
Arguments Ok {A} a.
Arguments Raise {A} e.

#[export] Instance exc_ret : MRet exc := fun A a => Ok a.
#[export] Instance exc_bind : MBind exc := fun A B k m =>
  match m with
  | Ok a => k a
  | Raise e => Raise e
  end.

(** A list comprehension whose body can raise: left to right, the first
    exception aborts it. *)
Fixpoint mapM {A B} (f : A -> exc B) (l : list A) : exc (list B) :=
  match l with
  | [] => Ok []
  | a :: r => b ← f a; bs ← mapM f r; Ok (b :: bs)
  end.

(** ** The document model (python-docx objects, as observed by the source) *)

(** [run.font.size]: a length; [len_emu] is its integer value (it is
    falsy when zero) and [len_pt_2f] the outcome of formatting its [pt]
    attribute with [:.2f] ([None] when that raises). *)
Record Length : Type := {
  len_emu : Z;
  len_pt_2f : option str
}.

Record Run : Type := {
  (** [run.text] *)
  run_text : str;
  (** [run._element.xpath('.//w:hyperlink')]: for each element found, in
      document order, what [.get("{...relationships}id")] returns on it *)
  run_hyperlinks : list (option str);
  (** [run.part.related_parts], each part observed by the text that
      formatting its [target_ref] gives (empty when it is falsy) *)
  run_related_parts : gmap str str;
  (** truthiness of [run.bold] and [run.italic] *)
  run_bold : bool;
  run_italic : bool;
  (** [run.font.size], [None] when absent *)
  font_size : option Length;
  (** [run.font.name] *)
  font_name : option str;
  (** [str(run.font.color.rgb)] when [run.font.color] and its [rgb] are
      truthy, [None] otherwise *)
  font_color_rgb : option str
}.

(** ** [run_to_html] *)

Definition escape (text : str) : str :=
  replace 62 (py "&gt;") (replace 60 (py "&lt;") (replace 38 (py "&amp;") text)).

(** Lines 32-34: the line-break rewriting. *)
Definition break_lines (text : str) : str :=
  if existsb (N.eqb 10) text then
    join (py "<br>")
      (map strip (List.filter (fun line => nonempty (strip line)) (split 10 text)))
  else text.

(** Lines 36-57: the inline style string. *)
Definition style_str (run : Run) : str :=
  let styles := [if run_bold run then py "font-weight:bold;"
                 else py "font-weight:normal;"] in
  let styles := if run_italic run then styles ++ [py "font-style:italic;"]
                else styles in
  let styles :=
    match font_size run with
    | Some sz =>
        if (len_emu sz =? 0)%Z then styles
        else match len_pt_2f sz with
             | Some txt => styles ++ [py "font-size:" ++ txt ++ py "pt;"]
             | None => styles
             end
    | None => styles
    end in
  let styles :=
    match font_name run with
    | Some nm =>
        if nonempty nm then styles ++ [py "font-family:'" ++ nm ++ py "';"]
        else styles
    | None => styles
    end in
  let styles :=
    match font_color_rgb run with
    | Some rgb => styles ++ [py "color:#" ++ rgb ++ py ";"]
    | None => styles
    end in
  join [] styles.

(** Lines 24-58: the formatted-span path, entered with the raw text. *)
Definition span_path (run : Run) : str :=
  let text := run_text run in
  if negb (nonempty (strip text)) then []
  else
    let text := escape text in
    let text := break_lines text in
    py "<span style=" ++ dq ++ style_str run ++ dq ++ py ">" ++ text
      ++ py "</span>".

(** Line 22: the anchor element. *)
Definition anchor (hyperlink text : str) : str :=
  py "<a href=" ++ dq ++ hyperlink ++ dq ++ py " target=" ++ dq
    ++ py "_blank" ++ dq ++ py ">" ++ text ++ py "</a>".

(** Line 19: [run.part.related_parts[r_id].target_ref if r_id else None]. *)
Definition resolve_hyperlink (run : Run) (r_id : option str) : exc (option str) :=
  match r_id with
  | Some k =>
      if nonempty k then
        match run_related_parts run !! k with
        | Some target_ref => Ok (Some target_ref)
        | None => Raise (KeyError k)
        end
      else Ok None
  | None => Ok None
  end.

(** Line 13: the test for raw markup. *)
Definition is_raw_markup (raw_text : str) : bool :=
  startswith (py "<img") raw_text || startswith (py "<iframe") raw_text.

Definition run_to_html (run : Run) : exc str :=
  let raw_text := strip (run_text run) in
  if is_raw_markup raw_text then Ok raw_text
  else
    match run_hyperlinks run with
    | r_id :: _ =>
        hyperlink ← resolve_hyperlink run r_id;
        let text := strip (run_text run) in
        match hyperlink with
        | Some url =>
            if nonempty url then Ok (anchor url text)
            else Ok (span_path run)
        | None => Ok (span_path run)
        end
    | [] => Ok (span_path run)
    end.

(** ** Paragraphs and [detect_list_type] *)

(** [w:numPr]: its [ilvl] child (observed by its [val]) and the number of
    its other child elements.  An lxml element is truthy when it has at
    least one child. *)
Record NumPr : Type := {
  numPr_ilvl : option Z;
  numPr_other_children : nat
}.

Record PPr : Type := {
  pPr_numPr : option NumPr
}.

Record Paragraph : Type := {
  (** [para.text] *)
  para_text : str;
  (** [para.runs] *)
  para_runs : list Run;
  (** [para.style.name] *)
  para_style_name : str;
  (** [para._p.pPr] *)
  para_pPr : option PPr
}.

Inductive ListType : Type := ul | ol.

(** The Python string standing for a list type. *)
Definition tag (t : ListType) : str :=
  match t with ul => py "ul" | ol => py "ol" end.

Definition ListType_eqb (a b : ListType) : bool :=
  match a, b with
  | ul, ul | ol, ol => true
  | _, _ => false
  end.

(** ['•', '-', '‣', '◦', '▪'] *)
Definition bullet_symbols : list N := [8226; 45; 8227; 9702; 9642].

Definition element_truthy (e : NumPr) : bool :=
  match numPr_ilvl e with
  | Some _ => true
  | None => negb (Nat.eqb (numPr_other_children e) 0)
  end.

Definition detect_list_type (para : Paragraph) : bool * option ListType :=
  let style_name := lower (para_style_name para) in
  let first_text := strip (para_text para) in
  if match first_text with
     | c :: _ => existsb (N.eqb c) bullet_symbols
     | [] => false
     end
  then (true, Some ul)
  else if contains (py "bullet") style_name then (true, Some ul)
  else if contains (py "number") style_name then (true, Some ol)
  else
    let numPr :=
      match para_pPr para with
      | Some pPr => pPr_numPr pPr
      | None => None
      end in
    match numPr with
    | Some np =>
        if element_truthy np then
          let ilvl := match numPr_ilvl np with Some v => v | None => 0%Z end in
          if (ilvl =? 0)%Z then (true, Some ol) else (true, Some ul)
        else (false, None)
    | None => (false, None)
    end.

(** ** [para_to_html] and [wrap_list] *)

Definition para_to_html (para : Paragraph) : exc (str * option ListType) :=
  parts ← mapM run_to_html (para_runs para);
  let html := join [] parts in
  if negb (nonempty (strip html)) then Ok ([], None)
  else
    let '(is_list, list_type) := detect_list_type para in
    let color_style :=
      match para_runs para with
      | first :: _ =>
          match font_color_rgb first with
          | Some rgb => py "style=" ++ dq ++ py "color:#" ++ rgb ++ py ";" ++ dq
          | None => []
          end
      | [] => []
      end in
    match is_list, list_type with
    | true, Some t =>
        Ok (py "<li " ++ color_style ++ py ">" ++ html ++ py "</li>", Some t)
    | _, _ => Ok (py "<p>" ++ html ++ py "</p>", None)
    end.

Definition wrap_list (items : list str) (list_type : option ListType) : str :=
  match list_type, items with
  | Some t, _ :: _ =>
      py "<" ++ tag t ++ py ">" ++ join [] items ++ py "</" ++ tag t ++ py ">"
  | _, _ => join [] items
  end.

(** ** [docx_to_html_sections] *)

Inductive FaqKind : Type := question | answer.

(** The dictionaries appended to [sections[2]]. *)
Record FaqItem : Type := {
  item_type : FaqKind;
  item_html : str
}.

(** The dictionaries of [faq_pairs]. *)
Record FaqPair : Type := {
  pair_question : str;
  pair_answer : str
}.

Record Result : Type := {
  head : str;
  text : str;
  faq : list FaqPair
}.

(** The local variables of the paragraph loop; [sections] is a list of
    three lists, kept here as three fields. *)
Record Locals : Type := {
  current_section : nat;
  sections_0 : list str;
  sections_1 : list str;
  sections_2 : list FaqItem;
  list_buffer : list str;
  list_type : option ListType
}.

(** Lines 115-119. *)
Definition init_locals : Locals :=
  {| current_section := 0; sections_0 := []; sections_1 := [];
     sections_2 := []; list_buffer := []; list_type := None |}.

Definition sentinel : str := py "#####".

Definition option_ListType_eqb (a b : option ListType) : bool :=
  match a, b with
  | None, None => true
  | Some x, Some y => ListType_eqb x y
  | _, _ => false
  end.

(** Lines 127-131: the sentinel paragraph. *)
Definition on_sentinel (s : Locals) : Locals :=
  let s1 :=
    if nonempty (list_buffer s) && Nat.eqb (current_section s) 1 then
      {| current_section := current_section s;
         sections_0 := sections_0 s;
         sections_1 := sections_1 s ++ [wrap_list (list_buffer s) (list_type s)];
         sections_2 := sections_2 s;
         list_buffer := [];
         list_type := None |}
    else s in
  {| current_section := current_section s1 + 1;
     sections_0 := sections_0 s1; sections_1 := sections_1 s1;
     sections_2 := sections_2 s1;
     list_buffer := list_buffer s1; list_type := list_type s1 |}.

(** Lines 139-144: a list item while in section 0 or 1. *)
Definition on_list_item (html : str) (detected : ListType) (s : Locals) : Locals :=
  let s1 :=
    if negb (option_ListType_eqb (list_type s) (Some detected))
       && nonempty (list_buffer s) then
      {| current_section := current_section s;
         sections_0 := sections_0 s;
         sections_1 := sections_1 s ++ [wrap_list (list_buffer s) (list_type s)];
         sections_2 := sections_2 s;
         list_buffer := [];
         list_type := list_type s |}
    else s in
  {| current_section := current_section s1;
     sections_0 := sections_0 s1; sections_1 := sections_1 s1;
     sections_2 := sections_2 s1;
     list_buffer := list_buffer s1 ++ [html];
     list_type := Some detected |}.

(** Lines 146-150: any other element while in section 0 or 1. *)
Definition on_plain (html : str) (s : Locals) : Locals :=
  let s1 :=
    if nonempty (list_buffer s) then
      {| current_section := current_section s;
         sections_0 := sections_0 s;
         sections_1 := sections_1 s ++ [wrap_list (list_buffer s) (list_type s)];
         sections_2 := sections_2 s;
         list_buffer := [];
         list_type := None |}
    else s in
  {| current_section := current_section s1;
     sections_0 :=
       if Nat.eqb (current_section s1) 0 then sections_0 s1 ++ [html]
       else sections_0 s1;
     sections_1 :=
       if Nat.eqb (current_section s1) 0 then sections_1 s1
       else sections_1 s1 ++ [html];
     sections_2 := sections_2 s1;
     list_buffer := list_buffer s1; list_type := list_type s1 |}.

(** Lines 152-156: an element while in section 2. *)
Definition on_faq (para : Paragraph) (html : str) (s : Locals) : Locals :=
  let is_bold :=
    existsb run_bold
      (List.filter (fun run => nonempty (strip (run_text run))) (para_runs para)) in
  {| current_section := current_section s;
     sections_0 := sections_0 s; sections_1 := sections_1 s;
     sections_2 :=
       sections_2 s
         ++ [{| item_type := if is_bold then question else answer;
                item_html := html |}];
     list_buffer := list_buffer s; list_type := list_type s |}.

(** Lines 122-156: the body of the paragraph loop. *)
Definition loop_body (s : Locals) (para : Paragraph) : exc Locals :=
  let raw_text := strip (para_text para) in
  if negb (nonempty raw_text) && negb (nonempty (para_runs para)) then Ok s
  else if str_eqb raw_text sentinel then Ok (on_sentinel s)
  else
    '(html, detected_list_type) ← para_to_html para;
    if negb (nonempty html) then Ok s
    else if Nat.leb (current_section s) 1 then
      match detected_list_type with
      | Some t => Ok (on_list_item html t s)
      | None => Ok (on_plain html s)
      end
    else if Nat.eqb (current_section s) 2 then Ok (on_faq para html s)
    else Ok s.

(** Lines 121-156: the loop. *)
Fixpoint paragraph_loop (s : Locals) (paragraphs : list Paragraph) : exc Locals :=
  match paragraphs with
  | [] => Ok s
  | para :: rest => s' ← loop_body s para; paragraph_loop s' rest
  end.

(** Lines 158-159. *)
Definition final_flush (s : Locals) : list str :=
  if nonempty (list_buffer s) && Nat.eqb (current_section s) 1 then
    sections_1 s ++ [wrap_list (list_buffer s) (list_type s)]
  else sections_1 s.

(** Truthiness of [current_q]: a non-empty string. *)
Definition pending (current_q : option str) : option str :=
  match current_q with
  | Some q => if nonempty q then Some q else None
  | None => None
  end.

(** Lines 165-172: one turn of the pairing loop, on
    [(faq_pairs, current_q)]. *)
Definition pair_step (st : list FaqPair * option str) (item : FaqItem)
  : list FaqPair * option str :=
  let '(faq_pairs, current_q) := st in
  match item_type item with
  | question =>
      match pending current_q with
      | Some q =>
          (faq_pairs ++ [{| pair_question := q; pair_answer := [] |}],
           Some (item_html item))
      | None => (faq_pairs, Some (item_html item))
      end
  | answer =>
      match pending current_q with
      | Some q =>
          (faq_pairs ++ [{| pair_question := q; pair_answer := item_html item |}],
           None)
      | None => (faq_pairs, current_q)
      end
  end.

(** Lines 162-174. *)
Definition group_faqs (items : list FaqItem) : list FaqPair :=
  let '(faq_pairs, current_q) := fold_left pair_step items ([], None) in
  match pending current_q with
  | Some q => faq_pairs ++ [{| pair_question := q; pair_answer := [] |}]
  | None => faq_pairs
  end.

(** Lines 158-180, from the locals left by the loop. *)
Definition finish (s : Locals) : Result :=
  {| head := strip (join [] (sections_0 s));
     text := strip (join [] (final_flush s));
     faq := group_faqs (sections_2 s) |}.

(** The conversion of the paragraphs of a document. *)
Definition docx_to_html_sections (paragraphs : list Paragraph) : exc Result :=
  s ← paragraph_loop init_locals paragraphs;
  Ok (finish s).

(** * Properties *)

(** ** Strings *)

Section StringFacts.

Lemma nonempty_true {A} (l : list A) : nonempty l = true <-> l <> [].
Proof. destruct l; simpl; split; congruence. Qed.

Lemma nonempty_false {A} (l : list A) : nonempty l = false <-> l = [].
Proof. destruct l; simpl; split; congruence. Qed.

Lemma str_eqb_eq (a b : str) : str_eqb a b = true <-> a = b.
Proof.
  revert b; induction a as [|x a IH]; intros [|y b]; simpl; split;
    try congruence.
  - intros [Hxy Hab]%andb_prop. apply N.eqb_eq in Hxy. apply IH in Hab.
    congruence.
  - intros [= -> ->]. rewrite N.eqb_refl. simpl. now apply IH.
Qed.

Lemma join_nil_concat (parts : list str) : join [] parts = concat parts.
Proof.
  induction parts as [|p [|q rest] IH]; simpl in *.
  - reflexivity.
  - now rewrite app_nil_r.
  - now rewrite IH.
Qed.

Lemma replace_app c new (a b : str) :
  replace c new (a ++ b) = replace c new a ++ replace c new b.
Proof. unfold replace. apply flat_map_app. Qed.

Lemma replace_cons c new x (s : str) :
  replace c new (x :: s) = (if x =? c then new else [x]) ++ replace c new s.
Proof. reflexivity. Qed.

Lemma split_not_nil c (s : str) : split c s <> [].
Proof.
  induction s as [|x s IH]; simpl; [discriminate|].
  destruct (x =? c); [discriminate|].
  destruct (split c s); discriminate.
Qed.

(** Splitting on a separator and joining on it again gives the string
    back: no character is lost by [split]. *)
Lemma join_split c (s : str) : join [c] (split c s) = s.
Proof.
  induction s as [|x s IH]; simpl; [reflexivity|].
  pose proof (split_not_nil c s) as Hne.
  destruct (split c s) as [|p rest] eqn:Es; [congruence|].
  destruct (x =? c) eqn:E.
  - apply N.eqb_eq in E; subst x. simpl in *. now rewrite IH.
  - destruct rest; simpl in *; congruence.
Qed.

Lemma lstrip_keeps (c : N) (s : str) :
  isspace c = false -> lstrip (c :: s) = c :: s.
Proof. intros H; simpl; now rewrite H. Qed.

(** Stripping never cuts into a piece that begins with a character that
    is no white space. *)
Lemma lstrip_infix (l1 l2 : str) c (h : str) :
  isspace c = false ->
  exists l1', lstrip (l1 ++ (c :: h) ++ l2) = l1' ++ (c :: h) ++ l2.
Proof.
  intros Hc. induction l1 as [|x l1 IH]; simpl.
  - exists []. now rewrite Hc.
  - destruct (isspace x).
    + exact IH.
    + now exists (x :: l1).
Qed.

End StringFacts.

(** [h] occurs in [s] as a contiguous piece. *)
Definition infix (h s : str) : Prop := exists l1 l2, s = l1 ++ h ++ l2.

Lemma rev_sandwich (l1 l2 m : str) (a b : N) :
  rev (l1 ++ (a :: m ++ [b]) ++ l2) = rev l2 ++ (b :: rev m ++ [a]) ++ rev l1.
Proof.
  rewrite !rev_app_distr. simpl. rewrite rev_app_distr. simpl.
  rewrite <- app_assoc. reflexivity.
Qed.

Lemma infix_strip (h s : str) (a b : N) (m : str) :
  h = a :: m ++ [b] -> isspace a = false -> isspace b = false ->
  infix h s -> infix h (strip s).
Proof.
  intros -> Ha Hb (l1 & l2 & ->).
  unfold strip, rstrip.
  destruct (lstrip_infix l1 l2 a (m ++ [b]) Ha) as [l1' ->].
  rewrite rev_sandwich.
  destruct (lstrip_infix (rev l2) (rev l1') b (rev m ++ [a]) Hb) as [l2' ->].
  exists l1', (rev l2').
  rewrite rev_sandwich, !rev_involutive. reflexivity.
Qed.

(** ** The run renderer *)

Module RunRenderer.

(** The escaping of one character, as the specification words it. *)
Definition escape_char (c : N) : str :=
  if c =? 38 then py "&amp;"
  else if c =? 60 then py "&lt;"
  else if c =? 62 then py "&gt;"
  else [c].


(** Escaping the ampersand first keeps the later replacements away from
    the entities already produced: the three replacements in sequence
    amount to one pass over the characters. *)
Lemma escape_one_pass (text : str) : escape text = flat_map escape_char text.
Proof.
  unfold escape. induction text as [|c text IH]; [reflexivity|].
  rewrite replace_cons, !replace_app, IH. simpl flat_map. f_equal.
  unfold escape_char.
  destruct (c =? 38) eqn:E38.
  { apply N.eqb_eq in E38; subst c; reflexivity. }
  rewrite replace_cons.
  destruct (c =? 60) eqn:E60.
  { apply N.eqb_eq in E60; subst c; reflexivity. }
  change (replace 60 (py "&lt;") []) with (@nil N).
  rewrite app_nil_r, replace_cons.
  destruct (c =? 62); reflexivity.
Qed.





(** Lines 9-58 for a run that is no raw markup and no hyperlink. *)
Lemma run_to_html_plain (run : Run) :
  is_raw_markup (strip (run_text run)) = false ->
  run_hyperlinks run = [] ->
  run_to_html run = Ok (span_path run).
Proof. intros Hraw Hl. unfold run_to_html. now rewrite Hraw, Hl. Qed.


(** C10: a hyperlink run whose relationship resolves is rendered as the
    anchor element with the target and the trimmed text of the run put in
    as they are, whatever characters they hold; the span path escapes. *)
Theorem hyperlink_interpolated_verbatim
    (run : Run) (r_id : str) (others : list (option str)) (url : str) :
  is_raw_markup (strip (run_text run)) = false ->
  run_hyperlinks run = Some r_id :: others ->
  r_id <> [] ->
  run_related_parts run !! r_id = Some url ->
  url <> [] ->
  run_to_html run
  = Ok (py "<a href=" ++ dq ++ url ++ dq ++ py " target=" ++ dq
          ++ py "_blank" ++ dq ++ py ">" ++ strip (run_text run) ++ py "</a>").
Proof.
  intros Hraw Hl Hid Hlook Hurl.
  unfold run_to_html. rewrite Hraw, Hl. unfold resolve_hyperlink.
  apply nonempty_true in Hid. apply nonempty_true in Hurl.
  rewrite Hid, Hlook. simpl. now rewrite Hurl.
Qed.

End RunRenderer.

(** ** Sample documents *)

Module Samples.

(** A run with the given text and weight and nothing else. *)
Definition text_run (t : str) (b : bool) : Run :=
  {| run_text := t; run_hyperlinks := []; run_related_parts := ∅;
     run_bold := b; run_italic := false;
     font_size := None; font_name := None; font_color_rgb := None |}.

(** A run inside hyperlink markup carrying relationship id [r_id]. *)
Definition link_run (t : str) (r_id : option str) (parts : gmap str str) : Run :=
  {| run_text := t; run_hyperlinks := [r_id]; run_related_parts := parts;
     run_bold := false; run_italic := false;
     font_size := None; font_name := None; font_color_rgb := None |}.

(** A paragraph of style Normal without numbering whose text is that of
    its runs. *)
Definition para_of (runs : list Run) : Paragraph :=
  {| para_text := concat (map run_text runs); para_runs := runs;
     para_style_name := py "Normal"; para_pPr := None |}.

Definition plain (t : string) : Paragraph := para_of [text_run (py t) false].
Definition strong (t : string) : Paragraph := para_of [text_run (py t) true].
Definition marker : Paragraph := plain "#####".

Definition site_parts : gmap str str :=
  {[ py "rId1" := py "https://example.com" ]}.

(** The relationship id of this run is not among the related parts. *)
Definition dangling_run : Run := link_run (py "site") (Some (py "rId9")) site_parts.

End Samples.

Module HyperlinkFailure.
Import Samples.

(** The resolution failures that the source guards against do fall
    through to the formatted-span path. *)
Lemma no_id_falls_through (run : Run) (others : list (option str)) :
  is_raw_markup (strip (run_text run)) = false ->
  run_hyperlinks run = None :: others \/ run_hyperlinks run = Some [] :: others ->
  run_to_html run = Ok (span_path run).
Proof.
  intros Hraw [Hl|Hl]; unfold run_to_html; now rewrite Hraw, Hl.
Qed.

Lemma empty_target_falls_through (run : Run) r_id (others : list (option str)) :
  is_raw_markup (strip (run_text run)) = false ->
  run_hyperlinks run = Some r_id :: others ->
  run_related_parts run !! r_id = Some [] ->
  run_to_html run = Ok (span_path run).
Proof.
  intros Hraw Hl Hlook. unfold run_to_html. rewrite Hraw, Hl.
  unfold resolve_hyperlink. destruct (nonempty r_id); [|reflexivity].
  now rewrite Hlook.
Qed.

(** C5, at the failing input: a run in hyperlink markup whose relationship
    id is missing from the related parts makes [run_to_html] raise
    KeyError, and the exception aborts the whole conversion. *)
Theorem dangling_relationship_raises :
  run_related_parts dangling_run !! py "rId9" = None
  /\ run_to_html dangling_run = Raise (KeyError (py "rId9"))
  /\ para_to_html (para_of [dangling_run]) = Raise (KeyError (py "rId9"))
  /\ docx_to_html_sections [para_of [dangling_run]]
     = Raise (KeyError (py "rId9")).
Proof. vm_compute. repeat split. Qed.

End HyperlinkFailure.

(** ** The list classifier *)

Module ListClassifier.

(** A check of the classifier: a verdict, or nothing when it does not
    apply. *)
Definition check := Paragraph -> option (bool * option ListType).

(** 1. The first character of the trimmed text is a bullet glyph. *)
Definition check_glyph : check := fun para =>
  match strip (para_text para) with
  | c :: _ =>
      if existsb (N.eqb c) bullet_symbols then Some (true, Some ul) else None
  | [] => None
  end.

(** 2. The style name, case-insensitively, contains bullet or number. *)
Definition check_style : check := fun para =>
  let name := lower (para_style_name para) in
  if contains (py "bullet") name then Some (true, Some ul)
  else if contains (py "number") name then Some (true, Some ol)
  else None.

(** The indent level of the numbering metadata, when there is any. *)
Definition numbering_level (para : Paragraph) : option Z :=
  match para_pPr para with
  | Some pPr =>
      match pPr_numPr pPr with
      | Some np =>
          if element_truthy np then
            Some (match numPr_ilvl np with Some v => v | None => 0%Z end)
          else None
      | None => None
      end
  | None => None
  end.

(** 3. Numbering metadata: level 0 is ordered, any other level unordered. *)
Definition check_numbering : check := fun para =>
  match numbering_level para with
  | Some level =>
      if (level =? 0)%Z then Some (true, Some ol) else Some (true, Some ul)
  | None => None
  end.

(** The checks in order, the first that applies wins; 4. otherwise the
    paragraph is no list item. *)
Fixpoint first_match (checks : list check) (para : Paragraph)
  : bool * option ListType :=
  match checks with
  | [] => (false, None)
  | c :: rest =>
      match c para with
      | Some verdict => verdict
      | None => first_match rest para
      end
  end.

(** [detect_list_type] is the first match among the glyph check, the
    style-name check and the numbering check, in this order, and no list
    item when none applies; numbering that passes the test of line 80 is
    ordered at level 0 and unordered at a level above 0. *)
Theorem detect_list_type_first_match (para : Paragraph) :
  detect_list_type para
  = first_match [check_glyph; check_style; check_numbering] para
  /\ (forall c rest,
        strip (para_text para) = c :: rest -> In c bullet_symbols ->
        detect_list_type para = (true, Some ul))
  /\ (forall level,
        check_glyph para = None -> check_style para = None ->
        numbering_level para = Some level ->
        (level = 0%Z -> detect_list_type para = (true, Some ol))
        /\ ((level > 0)%Z -> detect_list_type para = (true, Some ul)))
  /\ (check_glyph para = None -> check_style para = None ->
      numbering_level para = None ->
      detect_list_type para = (false, None)).
Proof.
  assert (Hfirst : detect_list_type para
            = first_match [check_glyph; check_style; check_numbering] para).
  { unfold detect_list_type, first_match, check_glyph, check_style,
      check_numbering, numbering_level.
    destruct (strip (para_text para)) as [|c rest].
    - destruct (contains (py "bullet") _); [reflexivity|].
      destruct (contains (py "number") _); [reflexivity|].
      destruct (para_pPr para) as [pPr|]; [|reflexivity].
      destruct (pPr_numPr pPr) as [np|]; [|reflexivity].
      destruct (element_truthy np); [|reflexivity].
      destruct (_ =? 0)%Z; reflexivity.
    - destruct (existsb (N.eqb c) bullet_symbols); [reflexivity|].
      destruct (contains (py "bullet") _); [reflexivity|].
      destruct (contains (py "number") _); [reflexivity|].
      destruct (para_pPr para) as [pPr|]; [|reflexivity].
      destruct (pPr_numPr pPr) as [np|]; [|reflexivity].
      destruct (element_truthy np); [|reflexivity].
      destruct (_ =? 0)%Z; reflexivity. }
  split; [exact Hfirst|]. rewrite Hfirst. simpl.
  split; [|split].
  - intros c rest Htext Hin. unfold check_glyph. rewrite Htext.
    assert (Hex : existsb (N.eqb c) bullet_symbols = true).
    { apply existsb_exists. exists c. split; [exact Hin|apply N.eqb_refl]. }
    now rewrite Hex.
  - intros level Hglyph Hstyle Hlevel. rewrite Hglyph, Hstyle.
    unfold check_numbering. rewrite Hlevel. split.
    + now intros ->.
    + intros Hpos. destruct (level =? 0)%Z eqn:E; [|reflexivity].
      apply Z.eqb_eq in E. lia.
  - intros Hglyph Hstyle Hlevel. rewrite Hglyph, Hstyle.
    unfold check_numbering. now rewrite Hlevel.
Qed.

(** A paragraph of style Normal with text Item and the given numbering
    properties. *)
Definition numbered_with (np : NumPr) : Paragraph :=
  {| para_text := py "Item";
     para_runs := [Samples.text_run (py "Item") false];
     para_style_name := py "Normal";
     para_pPr := Some {| pPr_numPr := Some np |} |}.

(** [<w:numPr/>]: numbering properties without any child. *)
Definition empty_numPr : NumPr :=
  {| numPr_ilvl := None; numPr_other_children := 0 |}.

(** Line 79: [pPr] and its [numPr] are not [None]. *)
Definition has_numPr (para : Paragraph) : bool :=
  match para_pPr para with
  | Some pPr => match pPr_numPr pPr with Some _ => true | None => false end
  | None => false
  end.

(** C7, at the failing input: a paragraph whose numbering properties are
    present but have no child element passes the presence test of line 79
    and fails the truthiness test of line 80, so it is classified as no
    list item and rendered as a plain paragraph, although its indent
    level, by line 81, is 0; with any child (a numbering id, a level) the
    same paragraph is a list item, ordered at level 0 and unordered
    above.  The glyph and style checks in front do classify: each of the
    five glyphs, and the style names with bullet or number in any case. *)
Theorem empty_numbering_not_a_list :
  has_numPr (numbered_with empty_numPr) = true
  /\ detect_list_type (numbered_with empty_numPr) = (false, None)
  /\ para_to_html (numbered_with empty_numPr)
     = Ok (py "<p><span style=" ++ dq ++ py "font-weight:normal;" ++ dq
             ++ py ">Item</span></p>", None)
  /\ detect_list_type
       (numbered_with {| numPr_ilvl := None; numPr_other_children := 1 |})
     = (true, Some ol)
  /\ detect_list_type
       (numbered_with {| numPr_ilvl := Some 0%Z; numPr_other_children := 0 |})
     = (true, Some ol)
  /\ detect_list_type
       (numbered_with {| numPr_ilvl := Some 2%Z; numPr_other_children := 1 |})
     = (true, Some ul)
  /\ map (fun glyph =>
            detect_list_type
              {| para_text := [32; glyph; 32; 120]; para_runs := [];
                 para_style_name := py "List Number"; para_pPr := None |})
       [8226; 45; 8227; 9702; 9642]
     = [(true, Some ul); (true, Some ul); (true, Some ul); (true, Some ul);
        (true, Some ul)]
  /\ map (fun name =>
            detect_list_type
              {| para_text := py "Item"; para_runs := [];
                 para_style_name := py name;
                 para_pPr := Some {| pPr_numPr := Some empty_numPr |} |})
       ["List BULLET 2"; "my Bullet Numbered"; "List NUMBER"; "Normal"]%string
     = [(true, Some ul); (true, Some ul); (true, Some ol); (false, None)].
Proof. vm_compute. repeat split. Qed.

End ListClassifier.

(** ** The FAQ pairer *)

Module FaqPairer.

Definition ask (h : str) : FaqItem := {| item_type := question; item_html := h |}.
Definition reply (h : str) : FaqItem := {| item_type := answer; item_html := h |}.
Definition mk_pair (q a : str) : FaqPair := {| pair_question := q; pair_answer := a |}.

Definition is_question (item : FaqItem) : bool :=
  match item_type item with question => true | answer => false end.

(** The pairs still to come from [items] when [slot] is the pending
    question: the pairing as the specification describes it. *)
Fixpoint pairs_from (slot : option str) (items : list FaqItem) : list FaqPair :=
  match items with
  | [] => match slot with Some p => [mk_pair p []] | None => [] end
  | item :: rest =>
      match item_type item, slot with
      | question, Some p => mk_pair p [] :: pairs_from (Some (item_html item)) rest
      | question, None => pairs_from (Some (item_html item)) rest
      | answer, Some p => mk_pair p (item_html item) :: pairs_from None rest
      | answer, None => pairs_from None rest
      end
  end.

Definition finish_pairs (st : list FaqPair * option str) : list FaqPair :=
  match pending (snd st) with
  | Some q => fst st ++ [mk_pair q []]
  | None => fst st
  end.

Lemma group_faqs_unfold (items : list FaqItem) :
  group_faqs items = finish_pairs (fold_left pair_step items ([], None)).
Proof.
  unfold group_faqs, finish_pairs.
  now destruct (fold_left pair_step items ([], None)) as [ps cq].
Qed.

Lemma pending_some (h : str) : h <> [] -> pending (Some h) = Some h.
Proof. intros Hne. simpl. apply nonempty_true in Hne. now rewrite Hne. Qed.

Lemma pending_idem (cq : option str) : pending (pending cq) = pending cq.
Proof.
  destruct cq as [q|]; simpl; [|reflexivity].
  destruct (nonempty q) eqn:E; simpl; [now rewrite E|reflexivity].
Qed.

(** The loop of the source computes [pairs_from] behind the pairs it has
    already emitted. *)
Lemma pairing_loop (items : list FaqItem) :
  Forall (fun item => item_html item <> []) items ->
  forall pairs cq,
    finish_pairs (fold_left pair_step items (pairs, cq))
    = pairs ++ pairs_from (pending cq) items.
Proof.
  induction 1 as [|item items Hne _ IH]; intros pairs cq.
  - unfold finish_pairs. simpl.
    destruct (pending cq); [reflexivity|now rewrite app_nil_r].
  - change (fold_left pair_step (item :: items) (pairs, cq))
      with (fold_left pair_step items (pair_step (pairs, cq) item)).
    simpl pairs_from.
    assert (Hstep : pair_step (pairs, cq) item
              = match item_type item, pending cq with
                | question, Some p =>
                    (pairs ++ [mk_pair p []], Some (item_html item))
                | question, None => (pairs, Some (item_html item))
                | answer, Some p =>
                    (pairs ++ [mk_pair p (item_html item)], None)
                | answer, None => (pairs, cq)
                end) by reflexivity.
    rewrite Hstep. clear Hstep.
    destruct (item_type item), (pending cq) as [p|] eqn:Ep;
      rewrite IH, ?pending_some, ?Ep by assumption; simpl pending;
      rewrite <- ?app_assoc; reflexivity.
Qed.

Lemma group_faqs_spec (items : list FaqItem) :
  Forall (fun item => item_html item <> []) items ->
  group_faqs items = pairs_from None items.
Proof.
  intros Hne. rewrite group_faqs_unfold.
  now rewrite (pairing_loop items Hne [] None).
Qed.

Lemma questions_in_order (items : list FaqItem) (slot : option str) :
  map pair_question (pairs_from slot items)
  = match slot with Some p => [p] | None => [] end
      ++ map item_html (List.filter is_question items).
Proof.
  revert slot. induction items as [|item items IH]; intros slot; simpl.
  - destruct slot; reflexivity.
  - unfold is_question.
    destruct (item_type item), slot; simpl; rewrite IH; reflexivity.
Qed.

(** C4: the tagged sequence question, answer, question, question, answer
    is paired in order, the middle question with an empty answer; an
    answer without pending question yields no pair, a question arriving
    while another is pending emits the pending one with an empty answer,
    a question pending at the end is emitted with an empty answer, and the
    pairs keep the order of the questions. *)
Theorem faq_pairing_semantics
    (items : list FaqItem) (Q1 A1 Q2 Q3 A3 : str) :
  Forall (fun item => item_html item <> []) items ->
  Q1 <> [] -> Q2 <> [] -> Q3 <> [] ->
  group_faqs [ask Q1; reply A1; ask Q2; ask Q3; reply A3]
  = [mk_pair Q1 A1; mk_pair Q2 []; mk_pair Q3 A3]
  /\ (forall pairs h, pair_step (pairs, None) (reply h) = (pairs, None))
  /\ (forall h, h <> [] -> group_faqs (reply h :: items) = group_faqs items)
  /\ (forall pairs p h, p <> [] ->
        pair_step (pairs, Some p) (ask h) = (pairs ++ [mk_pair p []], Some h))
  /\ (forall pairs p h, p <> [] ->
        pair_step (pairs, Some p) (reply h) = (pairs ++ [mk_pair p h], None))
  /\ (forall pairs p, p <> [] ->
        finish_pairs (pairs, Some p) = pairs ++ [mk_pair p []])
  /\ map pair_question (group_faqs items)
     = map item_html (List.filter is_question items).
Proof.
  intros Hitems H1 H2 H3.
  apply nonempty_true in H1, H2, H3.
  split.
  { unfold group_faqs. simpl. rewrite H1. simpl. rewrite H2. simpl.
    rewrite H3. reflexivity. }
  split; [reflexivity|].
  split.
  { intros h Hh. rewrite !group_faqs_spec; [reflexivity|assumption|].
    constructor; assumption. }
  split.
  { intros pairs p h Hp. apply nonempty_true in Hp. simpl. now rewrite Hp. }
  split.
  { intros pairs p h Hp. apply nonempty_true in Hp. simpl. now rewrite Hp. }
  split.
  { intros pairs p Hp. apply nonempty_true in Hp. unfold finish_pairs. simpl.
    now rewrite Hp. }
  rewrite group_faqs_spec by assumption. apply questions_in_order.
Qed.

End FaqPairer.

(** ** The section splitter *)

Module SectionSplitter.

(** The trimmed text of the paragraph is the sentinel (line 126). *)
Definition is_sentinel (para : Paragraph) : bool :=
  str_eqb (strip (para_text para)) sentinel.

(** Lines 138-156: where a rendered, non-empty element goes. *)
Definition route (s : Locals) (para : Paragraph) (html : str)
    (detected : option ListType) : Locals :=
  if negb (nonempty html) then s
  else if Nat.leb (current_section s) 1 then
    match detected with
    | Some t => on_list_item html t s
    | None => on_plain html s
    end
  else if Nat.eqb (current_section s) 2 then on_faq para html s
  else s.

Lemma para_to_html_no_runs (para : Paragraph) :
  para_runs para = [] -> para_to_html para = Ok ([], None).
Proof. intros Hr. unfold para_to_html. now rewrite Hr. Qed.

Lemma loop_body_sentinel (s : Locals) (para : Paragraph) :
  is_sentinel para = true -> loop_body s para = Ok (on_sentinel s).
Proof.
  unfold is_sentinel, loop_body. intros Hs. rewrite Hs.
  apply str_eqb_eq in Hs. now rewrite Hs.
Qed.

(** A paragraph that is no sentinel is rendered and routed; the paragraphs
    skipped at line 123 have no runs and render to nothing. *)
Lemma loop_body_route (s : Locals) (para : Paragraph) :
  is_sentinel para = false ->
  loop_body s para
  = '(html, detected) ← para_to_html para; Ok (route s para html detected).
Proof.
  unfold is_sentinel, loop_body. intros Hs. rewrite Hs.
  destruct (nonempty (strip (para_text para))); simpl.
  - destruct (para_to_html para) as [[html d]|e]; simpl; [|reflexivity].
    unfold route. destruct (negb (nonempty html)); [reflexivity|].
    destruct (Nat.leb (current_section s) 1); [now destruct d|].
    now destruct (Nat.eqb (current_section s) 2).
  - destruct (para_runs para) as [|r rs] eqn:Hr; simpl.
    + now rewrite para_to_html_no_runs.
    + destruct (para_to_html para) as [[html d]|e]; simpl; [|reflexivity].
      unfold route. destruct (negb (nonempty html)); [reflexivity|].
      destruct (Nat.leb (current_section s) 1); [now destruct d|].
      now destruct (Nat.eqb (current_section s) 2).
Qed.

Lemma paragraph_loop_app (s : Locals) (l1 l2 : list Paragraph) :
  paragraph_loop s (l1 ++ l2)
  = s' ← paragraph_loop s l1; paragraph_loop s' l2.
Proof.
  revert s. induction l1 as [|p l1 IH]; intros s; simpl; [reflexivity|].
  destruct (loop_body s p) as [s1|e]; simpl; [apply IH|reflexivity].
Qed.

Lemma paragraph_loop_app_ok (s s2 : Locals) (l1 l2 : list Paragraph) :
  paragraph_loop s (l1 ++ l2) = Ok s2 ->
  exists s1, paragraph_loop s l1 = Ok s1 /\ paragraph_loop s1 l2 = Ok s2.
Proof.
  rewrite paragraph_loop_app.
  destruct (paragraph_loop s l1) as [s1|e]; simpl; [eauto|discriminate].
Qed.

Lemma paragraph_loop_cons_ok (s s2 : Locals) p (l : list Paragraph) :
  paragraph_loop s (p :: l) = Ok s2 ->
  exists s1, loop_body s p = Ok s1 /\ paragraph_loop s1 l = Ok s2.
Proof.
  simpl. destruct (loop_body s p) as [s1|e]; simpl; [eauto|discriminate].
Qed.

(** The element a paragraph contributes, if it renders to one. *)
Definition element_of (para : Paragraph) : option (str * option ListType) :=
  match para_to_html para with
  | Ok (html, detected) => if nonempty html then Some (html, detected) else None
  | Raise _ => None
  end.

Lemma loop_body_element (s s' : Locals) (para : Paragraph) :
  is_sentinel para = false ->
  loop_body s para = Ok s' ->
  s' = match element_of para with
       | Some (html, detected) => route s para html detected
       | None => s
       end.
Proof.
  intros Hs. rewrite loop_body_route by assumption. unfold element_of.
  destruct (para_to_html para) as [[html d]|e]; simpl; [|discriminate].
  intros [= <-].
  destruct (nonempty html) eqn:E; [reflexivity|].
  unfold route. now rewrite E.
Qed.

(** *** The shapes of the rendered elements *)

Lemma para_to_html_shape (para : Paragraph) html detected :
  para_to_html para = Ok (html, detected) ->
  html = [] \/
  match detected with
  | Some _ => exists style body,
      html = py "<li " ++ style ++ py ">" ++ body ++ py "</li>"
  | None => exists body, html = py "<p>" ++ body ++ py "</p>"
  end.
Proof.
  unfold para_to_html.
  destruct (mapM run_to_html (para_runs para)) as [parts|e]; simpl;
    [|discriminate].
  destruct (negb (nonempty (strip (join [] parts)))).
  { intros [= <- <-]. now left. }
  destruct (detect_list_type para) as [is_list [t|]]; destruct is_list;
    intros [= <- <-]; right; eauto.
Qed.

Lemma element_of_shape (para : Paragraph) html detected :
  element_of para = Some (html, detected) ->
  match detected with
  | Some _ => exists style body,
      html = py "<li " ++ style ++ py ">" ++ body ++ py "</li>"
  | None => exists body, html = py "<p>" ++ body ++ py "</p>"
  end.
Proof.
  unfold element_of.
  destruct (para_to_html para) as [[h d]|e] eqn:Hp; [|discriminate].
  destruct (nonempty h) eqn:Hne; [|discriminate].
  intros [= <- <-].
  destruct (para_to_html_shape _ _ _ Hp) as [->|Hshape];
    [discriminate|exact Hshape].
Qed.

(** *** The list accumulator of the specification *)

Record Acc : Type := {
  out : list str;
  buf : list str;
  kind : option ListType
}.

(** flush: wrap what is buffered, append it to the output and clear the
    buffer and the active type; nothing happens on an empty buffer. *)
Definition flush (a : Acc) : Acc :=
  if nonempty (buf a) then
    {| out := out a ++ [wrap_list (buf a) (kind a)]; buf := []; kind := None |}
  else a.

(** accumulate: flush first if the buffer holds items of another type. *)
Definition accumulate (html : str) (t : ListType) (a : Acc) : Acc :=
  let a' :=
    if nonempty (buf a) && negb (option_ListType_eqb (kind a) (Some t))
    then flush a else a in
  {| out := out a'; buf := buf a' ++ [html]; kind := Some t |}.

(** What the paragraphs of sections 0 and 1 mean for the accumulator and
    the body-text output: a list item, an element of the body text, or
    only the end of a run of list items. *)
Inductive Event : Type :=
| EItem (html : str) (t : ListType)
| EPlain (html : str)
| EBreak.

Definition acc_step (a : Acc) (e : Event) : Acc :=
  match e with
  | EItem html t => accumulate html t a
  | EPlain html =>
      let a' := flush a in
      {| out := out a' ++ [html]; buf := buf a'; kind := kind a' |}
  | EBreak => flush a
  end.

Definition acc_of (s : Locals) : Acc :=
  {| out := sections_1 s; buf := list_buffer s; kind := list_type s |}.

Definition empty_acc : Acc := {| out := []; buf := []; kind := None |}.

(** The events of the paragraphs met in section [sec] (0 or 1): in
    section 0 an element that is no list item only breaks the list. *)
Definition events (sec : nat) (paragraphs : list Paragraph) : list Event :=
  flat_map (fun para =>
    match element_of para with
    | Some (html, Some t) => [EItem html t]
    | Some (html, None) => if Nat.eqb sec 0 then [EBreak] else [EPlain html]
    | None => []
    end) paragraphs.

(** The elements that are no list items. *)
Definition plain_elements (paragraphs : list Paragraph) : list str :=
  flat_map (fun para =>
    match element_of para with
    | Some (html, None) => [html]
    | _ => []
    end) paragraphs.

(** The tagged items of the paragraphs met in section 2. *)
Definition faq_items (paragraphs : list Paragraph) : list FaqItem :=
  flat_map (fun para =>
    match element_of para with
    | Some (html, _) =>
        [{| item_type :=
              if existsb run_bold
                   (List.filter (fun run => nonempty (strip (run_text run)))
                      (para_runs para))
              then question else answer;
            item_html := html |}]
    | None => []
    end) paragraphs.

Lemma Locals_eq (s s' : Locals) :
  current_section s = current_section s' ->
  sections_0 s = sections_0 s' ->
  sections_2 s = sections_2 s' ->
  acc_of s = acc_of s' ->
  s = s'.
Proof.
  destruct s, s'; unfold acc_of; simpl. intros -> -> -> [= -> -> ->].
  reflexivity.
Qed.

(** One paragraph in section 0 or 1. *)
Lemma low_step (s s' : Locals) (para : Paragraph) :
  (current_section s <= 1)%nat ->
  is_sentinel para = false ->
  loop_body s para = Ok s' ->
  current_section s' = current_section s
  /\ sections_2 s' = sections_2 s
  /\ sections_0 s'
     = sections_0 s
         ++ (if Nat.eqb (current_section s) 0 then plain_elements [para] else [])
  /\ acc_of s' = fold_left acc_step (events (current_section s) [para]) (acc_of s).
Proof.
  intros Hsec Hs Hbody.
  rewrite (loop_body_element s s' para Hs Hbody).
  unfold plain_elements, events. simpl flat_map.
  destruct (element_of para) as [[html [t|]]|] eqn:He.
  - assert (Hne : nonempty html = true).
    { unfold element_of in He.
      destruct (para_to_html para) as [[h d]|]; [|discriminate].
      destruct (nonempty h) eqn:E; [|discriminate]. now injection He as <- _. }
    unfold route. rewrite Hne. apply Nat.leb_le in Hsec. rewrite Hsec.
    simpl negb. cbv iota. unfold on_list_item, acc_of. simpl.
    destruct (nonempty (list_buffer s)) eqn:Eb,
      (option_ListType_eqb (list_type s) (Some t)) eqn:Et;
      destruct (Nat.eqb (current_section s) 0);
      simpl; unfold accumulate, flush; simpl;
      rewrite ?Eb, ?Et, ?app_nil_r; simpl; rewrite ?Eb; auto.
  - assert (Hne : nonempty html = true).
    { unfold element_of in He.
      destruct (para_to_html para) as [[h d]|]; [|discriminate].
      destruct (nonempty h) eqn:E; [|discriminate]. now injection He as <- _. }
    unfold route. rewrite Hne. pose proof Hsec as Hle.
    apply Nat.leb_le in Hsec. rewrite Hsec.
    simpl negb. cbv iota. unfold on_plain, acc_of. simpl.
    destruct (nonempty (list_buffer s)) eqn:Eb;
      destruct (current_section s) as [|[|n]]; try lia;
      simpl; unfold flush; simpl; rewrite ?Eb, ?app_nil_r; auto.
  - simpl. destruct (Nat.eqb (current_section s) 0);
      rewrite ?app_nil_r; auto.
Qed.

Lemma flat_map_cons {A B} (f : A -> list B) a l :
  flat_map f (a :: l) = flat_map f [a] ++ flat_map f l.
Proof. simpl. now rewrite app_nil_r. Qed.

(** A sentinel-free stretch of paragraphs in section 0 or 1. *)
Lemma low_phase (paragraphs : list Paragraph) :
  Forall (fun para => is_sentinel para = false) paragraphs ->
  forall s s',
    (current_section s <= 1)%nat ->
    paragraph_loop s paragraphs = Ok s' ->
    current_section s' = current_section s
    /\ sections_2 s' = sections_2 s
    /\ sections_0 s'
       = sections_0 s
           ++ (if Nat.eqb (current_section s) 0 then plain_elements paragraphs
               else [])
    /\ acc_of s'
       = fold_left acc_step (events (current_section s) paragraphs) (acc_of s).
Proof.
  induction 1 as [|para rest Hs _ IH]; intros s s' Hsec Hloop.
  - injection Hloop as <-. simpl.
    destruct (Nat.eqb (current_section s) 0); rewrite app_nil_r; auto.
  - apply paragraph_loop_cons_ok in Hloop as (s1 & Hbody & Hloop).
    destruct (low_step s s1 para Hsec Hs Hbody) as (Hc & H2 & H0 & Ha).
    assert (Hsec1 : (current_section s1 <= 1)%nat) by lia.
    destruct (IH s1 s' Hsec1 Hloop) as (Hc' & H2' & H0' & Ha').
    rewrite Hc in Hc', H0', Ha'.
    split; [congruence|]. split; [congruence|]. split.
    + rewrite H0', H0. unfold plain_elements. rewrite (flat_map_cons _ para rest).
      destruct (Nat.eqb (current_section s) 0);
        rewrite <- ?app_assoc, ?app_nil_r; reflexivity.
    + rewrite Ha', Ha. unfold events. rewrite (flat_map_cons _ para rest).
      now rewrite fold_left_app.
Qed.

(** A sentinel-free stretch of paragraphs in section 2. *)
Lemma faq_phase (paragraphs : list Paragraph) :
  Forall (fun para => is_sentinel para = false) paragraphs ->
  forall s s',
    current_section s = 2%nat ->
    paragraph_loop s paragraphs = Ok s' ->
    current_section s' = 2%nat
    /\ sections_0 s' = sections_0 s
    /\ acc_of s' = acc_of s
    /\ sections_2 s' = sections_2 s ++ faq_items paragraphs.
Proof.
  induction 1 as [|para rest Hs _ IH]; intros s s' Hsec Hloop.
  - injection Hloop as <-. simpl. now rewrite app_nil_r.
  - apply paragraph_loop_cons_ok in Hloop as (s1 & Hbody & Hloop).
    apply (loop_body_element s s1 para Hs) in Hbody.
    unfold faq_items. rewrite (flat_map_cons _ para rest). simpl flat_map at 1.
    destruct (element_of para) as [[html d]|] eqn:He.
    + assert (Hne : nonempty html = true).
      { unfold element_of in He.
        destruct (para_to_html para) as [[h d']|]; [|discriminate].
        destruct (nonempty h) eqn:E; [|discriminate]. now injection He as <- _. }
      unfold route in Hbody. rewrite Hne, Hsec in Hbody. simpl in Hbody.
      subst s1.
      assert (Hsec1 : current_section (on_faq para html s) = 2%nat)
        by exact Hsec.
      destruct (IH _ s' Hsec1 Hloop) as (Hc' & H0' & Ha' & H2').
      repeat split; try assumption.
      rewrite H2'. simpl. now rewrite <- !app_assoc.
    + subst s1. simpl. exact (IH s s' Hsec Hloop).
Qed.

(** Once the section counter is past 2 nothing is recorded any more. *)
Lemma beyond_phase (paragraphs : list Paragraph) :
  forall s s',
    (2 < current_section s)%nat ->
    paragraph_loop s paragraphs = Ok s' ->
    (2 < current_section s')%nat
    /\ sections_0 s' = sections_0 s
    /\ acc_of s' = acc_of s
    /\ sections_2 s' = sections_2 s.
Proof.
  induction paragraphs as [|para rest IH]; intros s s' Hsec Hloop.
  - injection Hloop as <-. auto.
  - apply paragraph_loop_cons_ok in Hloop as (s1 & Hbody & Hloop).
    assert (Hle : Nat.leb (current_section s) 1 = false)
      by (apply Nat.leb_gt; lia).
    assert (Heq : Nat.eqb (current_section s) 1 = false)
      by (apply Nat.eqb_neq; lia).
    assert (Heq2 : Nat.eqb (current_section s) 2 = false)
      by (apply Nat.eqb_neq; lia).
    destruct (is_sentinel para) eqn:Hs.
    + rewrite (loop_body_sentinel s para Hs) in Hbody. injection Hbody as <-.
      assert (Hsec1 : (2 < current_section (on_sentinel s))%nat).
      { unfold on_sentinel. rewrite Heq, andb_false_r. simpl. lia. }
      destruct (IH _ s' Hsec1 Hloop) as (Hc' & H0' & Ha' & H2').
      unfold on_sentinel, acc_of in *. rewrite Heq, andb_false_r in *.
      simpl in *. auto.
    + apply (loop_body_element s s1 para Hs) in Hbody.
      assert (Hs1 : s1 = s).
      { destruct (element_of para) as [[html d]|]; [|exact Hbody].
        unfold route in Hbody. rewrite Hle, Heq2 in Hbody.
        revert Hbody. now destruct (negb (nonempty html)). }
      rewrite Hs1 in Hloop. exact (IH s s' Hsec Hloop).
Qed.

(** The sentinel paragraph. *)
Lemma on_sentinel_effect (s : Locals) :
  current_section (on_sentinel s) = S (current_section s)
  /\ sections_0 (on_sentinel s) = sections_0 s
  /\ sections_2 (on_sentinel s) = sections_2 s
  /\ acc_of (on_sentinel s)
     = if Nat.eqb (current_section s) 1 then flush (acc_of s) else acc_of s.
Proof.
  unfold on_sentinel, acc_of, flush. simpl.
  destruct (nonempty (list_buffer s)), (Nat.eqb (current_section s) 1);
    simpl; repeat split; try lia; now destruct s.
Qed.

Lemma final_flush_acc (s : Locals) :
  final_flush s
  = if Nat.eqb (current_section s) 1 then out (flush (acc_of s))
    else sections_1 s.
Proof.
  unfold final_flush, flush, acc_of. simpl.
  destruct (nonempty (list_buffer s)), (Nat.eqb (current_section s) 1);
    reflexivity.
Qed.

Lemma flush_idem (a : Acc) : flush (flush a) = flush a.
Proof. unfold flush. destruct (nonempty (buf a)) eqn:E; simpl; now rewrite ?E. Qed.

Lemma docx_ok (paragraphs : list Paragraph) (r : Result) :
  docx_to_html_sections paragraphs = Ok r ->
  exists s, paragraph_loop init_locals paragraphs = Ok s /\ r = finish s.
Proof.
  unfold docx_to_html_sections.
  destruct (paragraph_loop init_locals paragraphs) as [s|e]; simpl;
    [|discriminate].
  intros [= <-]. eauto.
Qed.

(** The body text of a document whose first section is [A] and whose
    second section is [B]: the list items of [A] and everything of [B],
    through the accumulator, flushed at the end of [B]. *)
Definition body_text (A B : list Paragraph) : list str :=
  out (flush (fold_left acc_step (events 0 A ++ events 1 B) empty_acc)).

(** The locals after three sentinel-separated sections and whatever
    follows the third sentinel. *)
Lemma three_sentinels_locals (A B C D : list Paragraph) (m1 m2 m3 : Paragraph)
    (s : Locals) :
  Forall (fun para => is_sentinel para = false) A ->
  Forall (fun para => is_sentinel para = false) B ->
  Forall (fun para => is_sentinel para = false) C ->
  is_sentinel m1 = true -> is_sentinel m2 = true -> is_sentinel m3 = true ->
  paragraph_loop init_locals (A ++ m1 :: B ++ m2 :: C ++ m3 :: D) = Ok s ->
  (2 < current_section s)%nat
  /\ sections_0 s = plain_elements A
  /\ sections_1 s = body_text A B
  /\ sections_2 s = faq_items C.
Proof.
  intros HA HB HC Hm1 Hm2 Hm3 Hloop.
  apply paragraph_loop_app_ok in Hloop as (sA & HlA & Hloop).
  apply paragraph_loop_cons_ok in Hloop as (s1 & Hb1 & Hloop).
  apply paragraph_loop_app_ok in Hloop as (sB & HlB & Hloop).
  apply paragraph_loop_cons_ok in Hloop as (s2 & Hb2 & Hloop).
  apply paragraph_loop_app_ok in Hloop as (sC & HlC & Hloop).
  apply paragraph_loop_cons_ok in Hloop as (s3 & Hb3 & Hloop).
  rewrite loop_body_sentinel in Hb1, Hb2, Hb3 by assumption.
  injection Hb1 as <-. injection Hb2 as <-. injection Hb3 as <-.
  destruct (low_phase A HA init_locals sA (Nat.le_0_l _) HlA)
    as (HcA & H2A & H0A & HaA).
  change (current_section init_locals) with 0%nat in *.
  change (acc_of init_locals) with empty_acc in HaA.
  cbn [Nat.eqb sections_0 sections_2 init_locals app] in H0A, H2A.
  destruct (on_sentinel_effect sA) as (Hc1 & H01 & H21 & Ha1).
  rewrite HcA in Hc1, Ha1. cbn [Nat.eqb] in Ha1.
  assert (Hle1 : (current_section (on_sentinel sA) <= 1)%nat) by lia.
  destruct (low_phase B HB _ sB Hle1 HlB) as (HcB & H2B & H0B & HaB).
  rewrite Hc1 in HcB, H0B, HaB. cbn [Nat.eqb] in H0B.
  rewrite app_nil_r in H0B.
  destruct (on_sentinel_effect sB) as (Hc2 & H02 & H22 & Ha2).
  rewrite HcB in Hc2, Ha2. cbn [Nat.eqb] in Ha2.
  destruct (faq_phase C HC _ sC Hc2 HlC) as (HcC & H0C & HaC & H2C).
  destruct (on_sentinel_effect sC) as (Hc3 & H03 & H23 & Ha3).
  rewrite HcC in Hc3, Ha3. cbn [Nat.eqb] in Ha3.
  assert (Hgt : (2 < current_section (on_sentinel sC))%nat) by lia.
  destruct (beyond_phase D _ s Hgt Hloop) as (Hc & H0 & Ha & H2).
  split; [exact Hc|].
  split; [rewrite H0, H03, H0C, H02, H0B, H01, H0A; reflexivity|].
  split; [|rewrite H2, H23, H2C, H22, H2B, H21, H2A; reflexivity].
  change (sections_1 s) with (out (acc_of s)).
  rewrite Ha, Ha3, HaC, Ha2, HaB, Ha1, HaA. unfold body_text.
  now rewrite fold_left_app.
Qed.

Lemma finish_beyond (s : Locals) :
  (1 < current_section s)%nat ->
  finish s
  = {| head := strip (join [] (sections_0 s));
       text := strip (join [] (sections_1 s));
       faq := group_faqs (sections_2 s) |}.
Proof.
  intros Hgt. unfold finish. rewrite final_flush_acc.
  destruct (Nat.eqb (current_section s) 1) eqn:E; [|reflexivity].
  apply Nat.eqb_eq in E. lia.
Qed.

(** C3, as amended: with three sentinels between the groups A, B, C and
    D, the head comes from the elements of A that are no list items, the
    body text from the list items of A and from B, the FAQ pairs from C,
    and D contributes nothing: the result is that of the document cut
    after the third sentinel. *)
Theorem three_sentinels_sections
    (A B C D : list Paragraph) (m1 m2 m3 : Paragraph) (r : Result) :
  Forall (fun para => is_sentinel para = false) A ->
  Forall (fun para => is_sentinel para = false) B ->
  Forall (fun para => is_sentinel para = false) C ->
  is_sentinel m1 = true -> is_sentinel m2 = true -> is_sentinel m3 = true ->
  docx_to_html_sections (A ++ m1 :: B ++ m2 :: C ++ m3 :: D) = Ok r ->
  head r = strip (join [] (plain_elements A))
  /\ text r = strip (join [] (body_text A B))
  /\ faq r = group_faqs (faq_items C)
  /\ docx_to_html_sections (A ++ m1 :: B ++ m2 :: C ++ [m3]) = Ok r.
Proof.
  intros HA HB HC Hm1 Hm2 Hm3 Hdocx.
  apply docx_ok in Hdocx as (s & Hloop & ->).
  destruct (three_sentinels_locals A B C D m1 m2 m3 s HA HB HC Hm1 Hm2 Hm3 Hloop)
    as (Hgt & H0 & H1 & H2).
  rewrite (finish_beyond s (Nat.lt_succ_l _ _ Hgt)), H0, H1, H2. simpl.
  repeat split.
  replace (A ++ m1 :: B ++ m2 :: C ++ m3 :: D)
    with ((A ++ m1 :: B ++ m2 :: C ++ [m3]) ++ D) in Hloop.
  2:{ rewrite <- !app_assoc. simpl. rewrite <- !app_assoc. simpl.
      rewrite <- !app_assoc. reflexivity. }
  apply paragraph_loop_app_ok in Hloop as (s3 & Hl3 & _).
  unfold docx_to_html_sections. rewrite Hl3. simpl. f_equal.
  destruct (three_sentinels_locals A B C [] m1 m2 m3 s3 HA HB HC Hm1 Hm2 Hm3 Hl3)
    as (Hgt3 & H03 & H13 & H23).
  now rewrite (finish_beyond s3 (Nat.lt_succ_l _ _ Hgt3)), H03, H13, H23.
Qed.

(** Every tagged item recorded in section 2 has a non-empty markup: the
    pending-question test of the pairing loop, a truthiness test, never
    mistakes a recorded question for an absent one. *)
Lemma recorded_items_nonempty (paragraphs : list Paragraph) :
  forall s s',
    paragraph_loop s paragraphs = Ok s' ->
    Forall (fun item => item_html item <> []) (sections_2 s) ->
    Forall (fun item => item_html item <> []) (sections_2 s').
Proof.
  induction paragraphs as [|para rest IH]; intros s s' Hloop Hinv.
  - now injection Hloop as <-.
  - apply paragraph_loop_cons_ok in Hloop as (s1 & Hbody & Hloop).
    apply (IH s1 s' Hloop).
    destruct (is_sentinel para) eqn:Hs.
    + rewrite loop_body_sentinel in Hbody by assumption.
      injection Hbody as <-.
      destruct (on_sentinel_effect s) as (_ & _ & H2 & _). now rewrite H2.
    + rewrite (loop_body_element s s1 para Hs Hbody).
      destruct (element_of para) as [[html d]|]; [|exact Hinv].
      unfold route. destruct (nonempty html) eqn:Hne; [|exact Hinv].
      simpl negb. cbv iota.
      destruct (Nat.leb (current_section s) 1).
      * destruct d; unfold on_list_item, on_plain; simpl.
        -- now destruct (_ && _).
        -- now destruct (nonempty (list_buffer s)).
      * destruct (Nat.eqb (current_section s) 2); [|exact Hinv].
        unfold on_faq. simpl. apply Forall_app. split; [exact Hinv|].
        constructor; [|constructor]. simpl. now apply nonempty_true.
Qed.

(** *** Totality *)

(** The paragraph renders without raising. *)
Definition renders (para : Paragraph) : Prop :=
  exists element, para_to_html para = Ok element.

Lemma loop_body_total (s : Locals) (para : Paragraph) :
  renders para -> exists s', loop_body s para = Ok s'.
Proof.
  intros [[html d] Hr].
  destruct (is_sentinel para) eqn:Hs.
  - rewrite loop_body_sentinel by assumption. eauto.
  - rewrite loop_body_route by assumption. rewrite Hr. simpl. eauto.
Qed.

Lemma paragraph_loop_total (paragraphs : list Paragraph) :
  Forall renders paragraphs ->
  forall s, exists s', paragraph_loop s paragraphs = Ok s'.
Proof.
  induction 1 as [|para rest Hr _ IH]; intros s; simpl; [eauto|].
  destruct (loop_body_total s para Hr) as [s1 ->]. simpl. apply IH.
Qed.

(** The conversion returns a result for every document all of whose
    paragraphs render. *)
Lemma conversion_total (paragraphs : list Paragraph) :
  Forall renders paragraphs ->
  exists r, docx_to_html_sections paragraphs = Ok r.
Proof.
  intros Hr. unfold docx_to_html_sections.
  destruct (paragraph_loop_total paragraphs Hr init_locals) as [s ->].
  simpl. eauto.
Qed.

(** C2, as amended: a sentinel met in the FAQ state moves the section
    counter to 3, past the FAQ state, and from there on no paragraph is
    recorded: the result is that of the document cut before that
    sentinel. *)
Theorem sentinel_in_faq_ends_recording
    (before after : list Paragraph) (m : Paragraph) (s : Locals) :
  paragraph_loop init_locals before = Ok s ->
  current_section s = 2%nat ->
  is_sentinel m = true ->
  (exists s', loop_body s m = Ok s' /\ current_section s' = 3%nat)
  /\ (forall r, docx_to_html_sections (before ++ m :: after) = Ok r ->
               docx_to_html_sections before = Ok r)
  /\ (Forall renders after ->
      docx_to_html_sections (before ++ m :: after)
      = docx_to_html_sections before).
Proof.
  intros Hbefore Hsec Hm.
  destruct (on_sentinel_effect s) as (Hc1 & H01 & H21 & Ha1).
  rewrite Hsec in Hc1, Ha1. cbn [Nat.eqb] in Ha1.
  assert (Hgt : (2 < current_section (on_sentinel s))%nat) by lia.
  assert (Hsame : forall s',
            paragraph_loop (on_sentinel s) after = Ok s' ->
            finish s' = finish s).
  { intros s' Hloop.
    destruct (beyond_phase after _ s' Hgt Hloop) as (Hc & H0 & Ha & H2).
    assert (H1 : sections_1 s' = sections_1 s).
    { change (out (acc_of s') = out (acc_of s)). now rewrite Ha, Ha1. }
    rewrite !finish_beyond by lia.
    now rewrite H0, H01, H1, H2, H21. }
  assert (Hpre : docx_to_html_sections before = Ok (finish s)).
  { unfold docx_to_html_sections. now rewrite Hbefore. }
  assert (Hrun : paragraph_loop init_locals (before ++ m :: after)
                 = paragraph_loop (on_sentinel s) after).
  { rewrite paragraph_loop_app, Hbefore. simpl.
    now rewrite loop_body_sentinel by assumption. }
  split; [|split].
  - rewrite loop_body_sentinel by assumption. eauto.
  - intros r Hdocx. apply docx_ok in Hdocx as (s' & Hloop & ->).
    rewrite Hrun in Hloop. now rewrite (Hsame s' Hloop).
  - intros Hafter. rewrite Hpre. unfold docx_to_html_sections. rewrite Hrun.
    destruct (paragraph_loop_total after Hafter (on_sentinel s)) as [s' Hloop].
    rewrite Hloop. simpl. now rewrite (Hsame s' Hloop).
Qed.

(** *** The head output *)

(** The paragraphs in front of the first sentinel. *)
Fixpoint before_sentinel (paragraphs : list Paragraph) : list Paragraph :=
  match paragraphs with
  | [] => []
  | para :: rest =>
      if is_sentinel para then [] else para :: before_sentinel rest
  end.

Lemma before_sentinel_split (paragraphs : list Paragraph) :
  Forall (fun para => is_sentinel para = false) (before_sentinel paragraphs)
  /\ (paragraphs = before_sentinel paragraphs
      \/ exists m rest, is_sentinel m = true
           /\ paragraphs = before_sentinel paragraphs ++ m :: rest).
Proof.
  induction paragraphs as [|para rest [IHf IHs]]; simpl.
  - split; [constructor|now left].
  - destruct (is_sentinel para) eqn:Hs.
    + split; [constructor|]. right. now exists para, rest.
    + split; [now constructor|].
      destruct IHs as [IHs|(m & rest' & Hm & IHs)].
      * left. now rewrite <- IHs.
      * right. exists m, rest'. split; [exact Hm|]. simpl. now rewrite <- IHs.
Qed.

Lemma route_section (s : Locals) para html d :
  current_section (route s para html d) = current_section s.
Proof.
  unfold route. destruct (negb (nonempty html)); [reflexivity|].
  destruct (Nat.leb (current_section s) 1).
  - destruct d; unfold on_list_item, on_plain; simpl.
    + now destruct (_ && _).
    + now destruct (nonempty (list_buffer s)).
  - now destruct (Nat.eqb (current_section s) 2).
Qed.

Lemma route_head_frozen (s : Locals) para html d :
  (1 <= current_section s)%nat ->
  sections_0 (route s para html d) = sections_0 s.
Proof.
  intros Hsec. unfold route. destruct (negb (nonempty html)); [reflexivity|].
  destruct (Nat.leb (current_section s) 1).
  - destruct d; unfold on_list_item, on_plain; simpl.
    + now destruct (_ && _).
    + destruct (nonempty (list_buffer s)); simpl;
        destruct (current_section s); simpl; try reflexivity; lia.
  - now destruct (Nat.eqb (current_section s) 2).
Qed.

(** The section counter advances by one at each sentinel and never
    otherwise. *)
Lemma loop_body_section (s s' : Locals) (para : Paragraph) :
  loop_body s para = Ok s' ->
  current_section s'
  = (current_section s + if is_sentinel para then 1 else 0)%nat.
Proof.
  destruct (is_sentinel para) eqn:Hs.
  - rewrite loop_body_sentinel by assumption. intros [= <-].
    destruct (on_sentinel_effect s) as (Hc & _). lia.
  - intros Hbody. rewrite (loop_body_element s s' para Hs Hbody).
    destruct (element_of para) as [[html d]|]; rewrite ?route_section; lia.
Qed.

Lemma section_counts_sentinels (paragraphs : list Paragraph) :
  forall s s',
    paragraph_loop s paragraphs = Ok s' ->
    current_section s'
    = (current_section s + length (List.filter is_sentinel paragraphs))%nat.
Proof.
  induction paragraphs as [|para rest IH]; intros s s' Hloop.
  - injection Hloop as <-. simpl. lia.
  - apply paragraph_loop_cons_ok in Hloop as (s1 & Hbody & Hloop).
    rewrite (IH s1 s' Hloop), (loop_body_section s s1 para Hbody). simpl.
    destruct (is_sentinel para); simpl; lia.
Qed.

(** Past section 0 the head output does not change. *)
Lemma head_frozen (paragraphs : list Paragraph) :
  forall s s',
    (1 <= current_section s)%nat ->
    paragraph_loop s paragraphs = Ok s' ->
    sections_0 s' = sections_0 s.
Proof.
  induction paragraphs as [|para rest IH]; intros s s' Hsec Hloop.
  - now injection Hloop as <-.
  - apply paragraph_loop_cons_ok in Hloop as (s1 & Hbody & Hloop).
    pose proof (loop_body_section s s1 para Hbody) as Hc.
    assert (Hsec1 : (1 <= current_section s1)%nat) by lia.
    rewrite (IH s1 s' Hsec1 Hloop).
    destruct (is_sentinel para) eqn:Hs.
    + rewrite loop_body_sentinel in Hbody by assumption.
      injection Hbody as <-. apply on_sentinel_effect.
    + rewrite (loop_body_element s s1 para Hs Hbody).
      destruct (element_of para) as [[html d]|]; [|reflexivity].
      now apply route_head_frozen.
Qed.

Lemma head_output (paragraphs : list Paragraph) (s : Locals) :
  paragraph_loop init_locals paragraphs = Ok s ->
  sections_0 s = plain_elements (before_sentinel paragraphs).
Proof.
  intros Hloop.
  destruct (before_sentinel_split paragraphs) as [Hfree [Hall|(m & rest & Hm & Hsplit)]].
  - rewrite Hall in Hloop.
    now destruct (low_phase _ Hfree init_locals s (Nat.le_0_l _) Hloop)
      as (_ & _ & H0 & _).
  - rewrite Hsplit in Hloop.
    apply paragraph_loop_app_ok in Hloop as (sA & HlA & Hloop).
    apply paragraph_loop_cons_ok in Hloop as (s1 & Hb1 & Hloop).
    rewrite loop_body_sentinel in Hb1 by assumption. injection Hb1 as <-.
    destruct (low_phase _ Hfree init_locals sA (Nat.le_0_l _) HlA)
      as (HcA & _ & H0A & _).
    destruct (on_sentinel_effect sA) as (Hc1 & H01 & _).
    rewrite (head_frozen rest (on_sentinel sA) s) by (assumption || lia).
    now rewrite H01, H0A.
Qed.

Lemma plain_elements_shape (paragraphs : list Paragraph) :
  Forall (fun html => exists body, html = py "<p>" ++ body ++ py "</p>")
    (plain_elements paragraphs).
Proof.
  induction paragraphs as [|para rest IH]; [constructor|].
  unfold plain_elements. rewrite (flat_map_cons _ para rest).
  apply Forall_app. split; [|exact IH]. simpl.
  destruct (element_of para) as [[html [t|]]|] eqn:He; try constructor.
  - exact (element_of_shape para html None He).
  - constructor.
Qed.

(** C6: the head output is made of the elements, in front of the first
    sentinel, that are no list items, each a paragraph element; a list
    item met in section 0 leaves the head output as it is and goes to the
    accumulator that feeds the body text. *)
Theorem head_excludes_list_items (paragraphs : list Paragraph) (r : Result) :
  docx_to_html_sections paragraphs = Ok r ->
  head r = strip (join [] (plain_elements (before_sentinel paragraphs)))
  /\ Forall (fun html => exists body, html = py "<p>" ++ body ++ py "</p>")
       (plain_elements (before_sentinel paragraphs))
  /\ (forall s para html t,
        current_section s = 0%nat ->
        is_sentinel para = false ->
        para_to_html para = Ok (html, Some t) ->
        html <> [] ->
        exists s',
          loop_body s para = Ok s'
          /\ sections_0 s' = sections_0 s
          /\ acc_of s' = accumulate html t (acc_of s)).
Proof.
  intros Hdocx. apply docx_ok in Hdocx as (s & Hloop & ->).
  split; [|split].
  - simpl. now rewrite (head_output paragraphs s Hloop).
  - apply plain_elements_shape.
  - intros s0 para html t Hsec Hs Hr Hne.
    destruct (loop_body_total s0 para (ex_intro _ _ Hr)) as [s' Hbody].
    exists s'. split; [exact Hbody|].
    assert (Hle : (current_section s0 <= 1)%nat) by lia.
    destruct (low_step s0 s' para Hle Hs Hbody) as (_ & _ & H0 & Ha).
    assert (He : element_of para = Some (html, Some t)).
    { unfold element_of. rewrite Hr. apply nonempty_true in Hne.
      now rewrite Hne. }
    unfold plain_elements, events in H0, Ha. simpl in H0, Ha.
    rewrite He in H0, Ha. rewrite Hsec in H0. simpl in H0, Ha.
    rewrite app_nil_r in H0. auto.
Qed.

(** *** No list item is lost between the buffer and the body text *)

(** The item [h] is in the buffer or inside an entry of the output. *)
Definition kept (h : str) (a : Acc) : Prop :=
  In h (buf a) \/ exists e, In e (out a) /\ infix h e.

Lemma infix_concat (h e : str) (l : list str) :
  In e l -> infix h e -> infix h (concat l).
Proof.
  intros Hin (l1 & l2 & ->).
  apply in_split in Hin as (before & after & ->).
  rewrite concat_app. simpl.
  exists (concat before ++ l1), (l2 ++ concat after).
  now rewrite <- !app_assoc.
Qed.

Lemma infix_wrap_list (h : str) (items : list str) (t : option ListType) :
  In h items -> infix h (wrap_list items t).
Proof.
  intros Hin.
  assert (Hc : infix h (concat items)).
  { apply (infix_concat h h items Hin). exists [], []. now rewrite app_nil_r. }
  unfold wrap_list. rewrite join_nil_concat.
  destruct t as [t|], items as [|i items]; try exact Hc.
  destruct Hc as (l1 & l2 & ->).
  exists (py "<" ++ tag t ++ py ">" ++ l1), (l2 ++ py "</" ++ tag t ++ py ">").
  now rewrite <- !app_assoc.
Qed.

Lemma kept_flush (h : str) (a : Acc) : kept h a -> kept h (flush a).
Proof.
  unfold flush. destruct (nonempty (buf a)) eqn:E; [|auto].
  intros [Hin|(e & Hin & Hinf)]; right; simpl.
  - exists (wrap_list (buf a) (kind a)). split.
    + apply in_or_app. right. now left.
    + now apply infix_wrap_list.
  - exists e. split; [apply in_or_app; now left|exact Hinf].
Qed.

Lemma flush_buf (a : Acc) : buf (flush a) = [].
Proof.
  unfold flush. destruct (nonempty (buf a)) eqn:E; [reflexivity|].
  now apply nonempty_false.
Qed.

Lemma kept_acc_step (h : str) (a : Acc) (e : Event) :
  kept h a -> kept h (acc_step a e).
Proof.
  intros Hk. destruct e as [html t|html|]; simpl.
  - unfold accumulate.
    destruct (nonempty (buf a) && negb (option_ListType_eqb (kind a) (Some t))).
    + destruct (kept_flush h a Hk) as [Hin|(e & Hin & Hinf)].
      * left. simpl. apply in_or_app. now left.
      * right. simpl. eauto.
    + destruct Hk as [Hin|(e & Hin & Hinf)].
      * left. simpl. apply in_or_app. now left.
      * right. simpl. eauto.
  - destruct (kept_flush h a Hk) as [Hin|(e & Hin & Hinf)].
    + now left.
    + right. simpl. exists e. split; [apply in_or_app; now left|exact Hinf].
  - now apply kept_flush.
Qed.

Lemma kept_fold (h : str) (es : list Event) :
  forall a, kept h a -> kept h (fold_left acc_step es a).
Proof.
  induction es as [|e es IH]; intros a Hk; simpl; [exact Hk|].
  apply IH. now apply kept_acc_step.
Qed.

Lemma loop_body_singleton (s s' : Locals) (para : Paragraph) :
  loop_body s para = Ok s' -> paragraph_loop s [para] = Ok s'.
Proof. intros Hbody. simpl. now rewrite Hbody. Qed.

(** What one turn of the loop does to the accumulator. *)
Lemma loop_body_acc (s s' : Locals) (para : Paragraph) :
  loop_body s para = Ok s' ->
  acc_of s'
  = if is_sentinel para then
      if Nat.eqb (current_section s) 1 then flush (acc_of s) else acc_of s
    else if Nat.leb (current_section s) 1 then
      fold_left acc_step (events (current_section s) [para]) (acc_of s)
    else acc_of s.
Proof.
  intros Hbody. destruct (is_sentinel para) eqn:Hs.
  - rewrite loop_body_sentinel in Hbody by assumption. injection Hbody as <-.
    apply on_sentinel_effect.
  - destruct (Nat.leb (current_section s) 1) eqn:Hle.
    + apply Nat.leb_le in Hle. now apply low_step.
    + apply Nat.leb_gt in Hle. apply loop_body_singleton in Hbody.
      assert (Hfree : Forall (fun p => is_sentinel p = false) [para])
        by (constructor; [exact Hs|constructor]).
      destruct (Nat.eq_dec (current_section s) 2) as [H2|H2].
      * now apply (faq_phase [para] Hfree s s' H2 Hbody).
      * assert (Hgt : (2 < current_section s)%nat) by lia.
        now apply (beyond_phase [para] s s' Hgt Hbody).
Qed.

Lemma kept_loop_body (h : str) (s s' : Locals) (para : Paragraph) :
  loop_body s para = Ok s' -> kept h (acc_of s) -> kept h (acc_of s').
Proof.
  intros Hbody Hk. rewrite (loop_body_acc s s' para Hbody).
  destruct (is_sentinel para).
  - destruct (Nat.eqb (current_section s) 1); [now apply kept_flush|exact Hk].
  - destruct (Nat.leb (current_section s) 1); [now apply kept_fold|exact Hk].
Qed.

Lemma kept_paragraph_loop (h : str) (paragraphs : list Paragraph) :
  forall s s',
    paragraph_loop s paragraphs = Ok s' ->
    kept h (acc_of s) -> kept h (acc_of s').
Proof.
  induction paragraphs as [|para rest IH]; intros s s' Hloop Hk.
  - now injection Hloop as <-.
  - apply paragraph_loop_cons_ok in Hloop as (s1 & Hbody & Hloop).
    apply (IH s1 s' Hloop). now apply (kept_loop_body h s s1 para).
Qed.

(** From section 2 on the buffer is empty: the sentinel that leaves
    section 1 flushes it and nothing fills it afterwards. *)
Lemma buffer_empty_step (s s' : Locals) (para : Paragraph) :
  loop_body s para = Ok s' ->
  ((2 <= current_section s)%nat -> list_buffer s = []) ->
  (2 <= current_section s')%nat -> list_buffer s' = [].
Proof.
  intros Hbody Hinv Hsec'.
  pose proof (loop_body_section s s' para Hbody) as Hc.
  pose proof (loop_body_acc s s' para Hbody) as Ha.
  change (buf (acc_of s') = []). rewrite Ha.
  destruct (is_sentinel para).
  - destruct (Nat.eqb (current_section s) 1) eqn:E1.
    + apply flush_buf.
    + apply Nat.eqb_neq in E1. apply Hinv. lia.
  - destruct (Nat.leb (current_section s) 1) eqn:Hle.
    + apply Nat.leb_le in Hle. lia.
    + apply Hinv. lia.
Qed.

Lemma buffer_empty_beyond (paragraphs : list Paragraph) :
  forall s s',
    paragraph_loop s paragraphs = Ok s' ->
    ((2 <= current_section s)%nat -> list_buffer s = []) ->
    (2 <= current_section s')%nat -> list_buffer s' = [].
Proof.
  induction paragraphs as [|para rest IH]; intros s s' Hloop Hinv.
  - now injection Hloop as <-.
  - apply paragraph_loop_cons_ok in Hloop as (s1 & Hbody & Hloop).
    apply (IH s1 s' Hloop). now apply (buffer_empty_step s s1 para).
Qed.

Lemma option_ListType_eqb_eq (a b : option ListType) :
  option_ListType_eqb a b = true <-> a = b.
Proof.
  destruct a as [[|]|], b as [[|]|]; simpl; split; congruence.
Qed.

Lemma list_item_edges (para : Paragraph) (html : str) (t : ListType) :
  para_to_html para = Ok (html, Some t) -> html <> [] ->
  exists m, html = 60 :: m ++ [62].
Proof.
  intros Hr Hne.
  destruct (para_to_html_shape para html (Some t) Hr)
    as [->|(style & body & ->)]; [congruence|].
  exists (py "li " ++ style ++ py ">" ++ body ++ py "</li").
  rewrite <- !app_assoc. reflexivity.
Qed.

(** C1, as amended: a non-empty list buffer is wrapped and appended to
    the body-text output when an item of another type arrives, when an
    element that is no list item is rendered in section 0 or 1, when a
    sentinel is met in section 1 and when the stream ends in section 1; a
    sentinel met in section 0 leaves the buffer pending; and in a document
    with at least one sentinel every list item buffered in section 0 or 1
    is found in the body text of the result. *)
Theorem list_buffer_flushed
    (before after : list Paragraph) (para : Paragraph) (s : Locals)
    (html : str) (t : ListType) (r : Result) :
  paragraph_loop init_locals before = Ok s ->
  (current_section s <= 1)%nat ->
  is_sentinel para = false ->
  para_to_html para = Ok (html, Some t) ->
  html <> [] ->
  Exists (fun p => is_sentinel p = true) (before ++ para :: after) ->
  docx_to_html_sections (before ++ para :: after) = Ok r ->
  infix html (text r)
  /\ (forall s0 h0 t0,
        list_buffer s0 <> [] -> list_type s0 <> Some t0 ->
        sections_1 (on_list_item h0 t0 s0)
        = sections_1 s0 ++ [wrap_list (list_buffer s0) (list_type s0)]
        /\ list_buffer (on_list_item h0 t0 s0) = [h0])
  /\ (forall s0 h0,
        list_buffer s0 <> [] -> (current_section s0 <= 1)%nat ->
        sections_1 (on_plain h0 s0)
        = sections_1 s0 ++ [wrap_list (list_buffer s0) (list_type s0)]
            ++ (if Nat.eqb (current_section s0) 0 then [] else [h0])
        /\ list_buffer (on_plain h0 s0) = [])
  /\ (forall s0,
        list_buffer s0 <> [] -> current_section s0 = 1%nat ->
        sections_1 (on_sentinel s0)
        = sections_1 s0 ++ [wrap_list (list_buffer s0) (list_type s0)]
        /\ list_buffer (on_sentinel s0) = []
        /\ final_flush s0
           = sections_1 s0 ++ [wrap_list (list_buffer s0) (list_type s0)])
  /\ (forall s0,
        current_section s0 = 0%nat ->
        sections_1 (on_sentinel s0) = sections_1 s0
        /\ list_buffer (on_sentinel s0) = list_buffer s0
        /\ list_type (on_sentinel s0) = list_type s0
        /\ current_section (on_sentinel s0) = 1%nat).
Proof.
  intros Hbefore Hsec Hs Hr Hne Hmark Hdocx.
  split; [|split; [|split; [|split]]].
  - apply docx_ok in Hdocx as (s_end & Hloop & ->).
    pose proof (section_counts_sentinels _ _ _ Hloop) as Hcount.
    pose proof (buffer_empty_beyond _ _ _ Hloop) as Hempty.
    apply paragraph_loop_app_ok in Hloop as (s' & Hb' & Hloop).
    rewrite Hbefore in Hb'. injection Hb' as <-.
    apply paragraph_loop_cons_ok in Hloop as (s1 & Hbody & Hloop).
    assert (He : element_of para = Some (html, Some t)).
    { unfold element_of. rewrite Hr. apply nonempty_true in Hne.
      now rewrite Hne. }
    assert (Hk1 : kept html (acc_of s1)).
    { rewrite (loop_body_acc s s1 para Hbody), Hs.
      apply Nat.leb_le in Hsec. rewrite Hsec.
      unfold events. simpl. rewrite He. simpl. left. simpl.
      apply in_or_app. right. now left. }
    pose proof (kept_paragraph_loop html after s1 s_end Hloop Hk1) as Hk.
    assert (Hpos : (1 <= current_section s_end)%nat).
    { rewrite Hcount. simpl.
      apply Exists_exists in Hmark as (m & Hin & Hm).
      assert (Hin' : In m (List.filter is_sentinel (before ++ para :: after))).
      { apply filter_In. split; [|exact Hm]. now apply list_elem_of_In. }
      destruct (List.filter is_sentinel (before ++ para :: after));
        [destruct Hin'|simpl; lia]. }
    destruct (list_item_edges para html t Hr Hne) as [m Hm].
    apply (infix_strip html _ 60 62 m Hm); [reflexivity|reflexivity|].
    rewrite join_nil_concat, final_flush_acc.
    destruct (Nat.eqb (current_section s_end) 1) eqn:E1.
    + destruct (kept_flush html _ Hk) as [Hin|(e & Hin & Hinf)].
      * rewrite flush_buf in Hin. destruct Hin.
      * now apply (infix_concat html e).
    + apply Nat.eqb_neq in E1.
      destruct Hk as [Hin|(e & Hin & Hinf)].
      * simpl in Hin. rewrite Hempty in Hin by (simpl; lia). destruct Hin.
      * now apply (infix_concat html e).
  - intros s0 h0 t0 Hbuf Hty. unfold on_list_item.
    apply nonempty_true in Hbuf. rewrite Hbuf.
    destruct (option_ListType_eqb (list_type s0) (Some t0)) eqn:E.
    + apply option_ListType_eqb_eq in E. contradiction.
    + simpl. auto.
  - intros s0 h0 Hbuf Hle. unfold on_plain.
    apply nonempty_true in Hbuf. rewrite Hbuf. simpl.
    destruct (Nat.eqb (current_section s0) 0);
      rewrite ?app_nil_r, <- ?app_assoc; auto.
  - intros s0 Hbuf H1. unfold on_sentinel, final_flush.
    apply nonempty_true in Hbuf. rewrite Hbuf, H1. simpl. auto.
  - intros s0 H0. unfold on_sentinel. rewrite H0, andb_false_r. simpl.
    rewrite H0. auto.
Qed.

End SectionSplitter.

(** ** The properties at sample documents *)

Module Instances.
Import Samples SectionSplitter.

(** A bulleted paragraph and the list item it renders to. *)
Definition bullet : Paragraph := plain "- x".

Definition bullet_item : str :=
  Eval vm_compute in
    match para_to_html bullet with
    | Ok (html, _) => html
    | Raise _ => []
    end.

Definition render (paragraphs : list Paragraph) : Result :=
  match docx_to_html_sections paragraphs with
  | Ok r => r
  | Raise _ => {| head := []; text := []; faq := [] |}
  end.

Definition locals_after (paragraphs : list Paragraph) : Locals :=
  match paragraph_loop init_locals paragraphs with
  | Ok s => s
  | Raise _ => init_locals
  end.

(** C1, counterexample: a document made of one bulleted paragraph and no
    sentinel ends in section 0 with the item still in the buffer, and the
    result holds it nowhere; a sentinel met in that state does not flush
    the buffer either. *)
Lemma buffer_left_pending_in_head :
  para_to_html bullet = Ok (bullet_item, Some ul)
  /\ paragraph_loop init_locals [bullet] = Ok (locals_after [bullet])
  /\ current_section (locals_after [bullet]) = 0%nat
  /\ list_buffer (locals_after [bullet]) = [bullet_item]
  /\ docx_to_html_sections [bullet]
     = Ok {| head := []; text := []; faq := [] |}
  /\ sections_1 (on_sentinel (locals_after [bullet])) = []
  /\ list_buffer (on_sentinel (locals_after [bullet])) = [bullet_item].
Proof. vm_compute. repeat split. Qed.

Lemma list_buffer_flushed_witness :
  paragraph_loop init_locals [] = Ok init_locals
  /\ para_to_html bullet = Ok (bullet_item, Some ul)
  /\ infix bullet_item (text (render [bullet; marker])).
Proof.
  split; [reflexivity|]. split; [vm_compute; reflexivity|].
  refine (proj1 (list_buffer_flushed [] [marker] bullet init_locals
                   bullet_item ul (render [bullet; marker]) _ _ _ _ _ _ _)).
  - reflexivity.
  - simpl. lia.
  - vm_compute. reflexivity.
  - vm_compute. reflexivity.
  - discriminate.
  - apply Exists_cons_tl, Exists_cons_hd. vm_compute. reflexivity.
  - vm_compute. reflexivity.
Defined.

(** C2, counterexample: after two sentinels and a question the splitter
    is in the FAQ state; with one more sentinel in front of the answer the
    question is paired with an empty answer, without it with the answer. *)
Lemma extra_sentinel_stops_faq :
  current_section (locals_after [marker; marker; strong "Q"]) = 2%nat
  /\ map pair_answer
       (faq (render [marker; marker; strong "Q"; marker; plain "A"]))
     = [[]]
  /\ map pair_answer (faq (render [marker; marker; strong "Q"; plain "A"]))
     = [py "<p><span style=" ++ dq ++ py "font-weight:normal;" ++ dq
          ++ py ">A</span></p>"]
  /\ docx_to_html_sections [marker; marker; strong "Q"; marker; plain "A"]
     <> docx_to_html_sections [marker; marker; strong "Q"; plain "A"].
Proof.
  split; [vm_compute; reflexivity|]. split; [vm_compute; reflexivity|].
  split; [vm_compute; reflexivity|]. vm_compute. discriminate.
Qed.

Lemma sentinel_in_faq_ends_recording_witness :
  docx_to_html_sections [marker; marker; strong "Q"; marker; plain "A"]
  = docx_to_html_sections [marker; marker; strong "Q"].
Proof.
  refine (proj2 (proj2 (sentinel_in_faq_ends_recording
            [marker; marker; strong "Q"] [plain "A"] marker
            (locals_after [marker; marker; strong "Q"]) _ _ _)) _).
  - vm_compute. reflexivity.
  - vm_compute. reflexivity.
  - vm_compute. reflexivity.
  - constructor; [|constructor]. eexists. vm_compute. reflexivity.
Defined.

(** C3, counterexample: two documents with three sentinels and the same
    second group, one with a bulleted paragraph as first group and one
    with an empty first group; the list item of the first group is in the
    body text of the first and the two body texts differ. *)
Lemma text_holds_list_items_of_head :
  infix bullet_item
    (text (render [bullet; marker; plain "y"; marker; strong "Q"; marker;
                   plain "D"]))
  /\ text (render [bullet; marker; plain "y"; marker; strong "Q"; marker;
                  plain "D"])
     = py "<ul>" ++ bullet_item ++ py "</ul>"
         ++ text (render [marker; plain "y"; marker; strong "Q"; marker;
                          plain "D"])
  /\ text (render [bullet; marker; plain "y"; marker; strong "Q"; marker;
                  plain "D"])
     <> text (render [marker; plain "y"; marker; strong "Q"; marker;
                      plain "D"]).
Proof.
  split; [|split].
  - exists (py "<ul>"). eexists. vm_compute. reflexivity.
  - vm_compute. reflexivity.
  - vm_compute. discriminate.
Qed.

Lemma three_sentinels_sections_witness :
  text (render [bullet; marker; plain "y"; marker; strong "Q"; marker;
                plain "D"])
  = strip (join [] (body_text [bullet] [plain "y"]))
  /\ docx_to_html_sections
       [bullet; marker; plain "y"; marker; strong "Q"; marker]
     = Ok (render [bullet; marker; plain "y"; marker; strong "Q"; marker;
                   plain "D"]).
Proof.
  assert (Hfree : forall t, Forall (fun p => is_sentinel p = false) [t] <->
                            is_sentinel t = false).
  { intros t. split; [now inversion 1|]. intros H. now repeat constructor. }
  destruct (three_sentinels_sections [bullet] [plain "y"] [strong "Q"]
              [plain "D"] marker marker marker
              (render [bullet; marker; plain "y"; marker; strong "Q"; marker;
                       plain "D"]))
    as (_ & Ht & _ & Hcut).
  - apply Hfree. vm_compute. reflexivity.
  - apply Hfree. vm_compute. reflexivity.
  - apply Hfree. vm_compute. reflexivity.
  - vm_compute. reflexivity.
  - vm_compute. reflexivity.
  - vm_compute. reflexivity.
  - vm_compute. reflexivity.
  - split; [exact Ht|exact Hcut].
Defined.

Lemma faq_pairing_semantics_witness :
  group_faqs [FaqPairer.ask (py "Q1"); FaqPairer.reply (py "A1");
              FaqPairer.ask (py "Q2"); FaqPairer.ask (py "Q3");
              FaqPairer.reply (py "A3")]
  = [FaqPairer.mk_pair (py "Q1") (py "A1"); FaqPairer.mk_pair (py "Q2") [];
     FaqPairer.mk_pair (py "Q3") (py "A3")]
  /\ map pair_question
       (group_faqs [FaqPairer.reply (py "x"); FaqPairer.ask (py "Q");
                    FaqPairer.reply (py "A")])
     = [py "Q"].
Proof.
  destruct (FaqPairer.faq_pairing_semantics
              [FaqPairer.reply (py "x"); FaqPairer.ask (py "Q");
               FaqPairer.reply (py "A")]
              (py "Q1") (py "A1") (py "Q2") (py "Q3") (py "A3"))
    as (Hexample & _ & _ & _ & _ & _ & Horder).
  - repeat constructor; discriminate.
  - discriminate.
  - discriminate.
  - discriminate.
  - split; [exact Hexample|exact Horder].
Defined.

Lemma head_excludes_list_items_witness :
  head (render [bullet; plain "h"; marker; plain "y"])
  = strip (join []
      (plain_elements (before_sentinel [bullet; plain "h"; marker; plain "y"])))
  /\ head (render [bullet; plain "h"; marker; plain "y"])
     = py "<p><span style=" ++ dq ++ py "font-weight:normal;" ++ dq
         ++ py ">h</span></p>".
Proof.
  split; [|vm_compute; reflexivity].
  refine (proj1 (head_excludes_list_items
                   [bullet; plain "h"; marker; plain "y"]
                   (render [bullet; plain "h"; marker; plain "y"]) _)).
  vm_compute. reflexivity.
Defined.



(** A link whose text and target hold characters special to HTML. *)
Definition odd_target : str := py "https://x.y/?a=1&b=<2>" ++ dq.
Definition odd_link : Run :=
  link_run (py " a&b<c>" ++ dq ++ py " ") (Some (py "rId1"))
    {[ py "rId1" := odd_target ]}.

Lemma hyperlink_interpolated_verbatim_witness :
  run_to_html odd_link
  = Ok (py "<a href=" ++ dq ++ py "https://x.y/?a=1&b=<2>" ++ dq ++ dq
          ++ py " target=" ++ dq ++ py "_blank" ++ dq ++ py ">"
          ++ py "a&b<c>" ++ dq ++ py "</a>")
  /\ span_path (text_run (py "a&b<c>") false)
     = py "<span style=" ++ dq ++ py "font-weight:normal;" ++ dq
         ++ py ">a&amp;b&lt;c&gt;</span>".
Proof.
  split; [|vm_compute; reflexivity].
  refine (eq_trans
            (RunRenderer.hyperlink_interpolated_verbatim odd_link (py "rId1")
               [] odd_target _ _ _ _ _) _).
  - vm_compute. reflexivity.
  - reflexivity.
  - discriminate.
  - vm_compute. reflexivity.
  - discriminate.
  - vm_compute. reflexivity.
Defined.

End Instances.

(** * Further properties of the renderers *)

Module RunFacts.

(** The run is in hyperlink markup whose relationship resolves to the
    non-empty target [url] (lines 16-21). *)
Definition links_to (run : Run) (url : str) : Prop :=
  exists k others,
    run_hyperlinks run = Some k :: others /\ k <> []
    /\ run_related_parts run !! k = Some url /\ url <> [].

Lemma startswith_nonempty (p s : str) :
  p <> [] -> startswith p s = true -> s <> [].
Proof. destruct p, s; simpl; congruence. Qed.

Lemma raw_markup_nonempty (raw_text : str) :
  is_raw_markup raw_text = true -> raw_text <> [].
Proof.
  unfold is_raw_markup. intros [H|H]%orb_prop;
    apply (startswith_nonempty _ _) in H; auto; discriminate.
Qed.

Lemma span_path_nonempty (run : Run) :
  strip (run_text run) <> [] -> span_path run <> [].
Proof.
  intros Hne. unfold span_path. apply nonempty_true in Hne. rewrite Hne.
  discriminate.
Qed.

Lemma span_path_blank (run : Run) :
  strip (run_text run) = [] -> span_path run = [].
Proof. intros Hb. unfold span_path. now rewrite Hb. Qed.

(** [run_to_html] raises the KeyError of a relationship id exactly when
    the run is no raw markup and the id is the non-empty id carried by its
    first hyperlink element and is no key of the related parts.  So raw
    markup hides a dangling id, an absent or empty id never raises, and
    the hyperlink elements behind the first are not looked at. *)
Theorem run_to_html_key_error_iff (run : Run) (k : str) :
  run_to_html run = Raise (KeyError k) <->
  is_raw_markup (strip (run_text run)) = false
  /\ exists others,
       run_hyperlinks run = Some k :: others /\ k <> []
       /\ run_related_parts run !! k = None.
Proof.
  unfold run_to_html. split.
  - destruct (is_raw_markup (strip (run_text run))); [discriminate|].
    destruct (run_hyperlinks run) as [|[k'|] others]; try discriminate.
    unfold resolve_hyperlink. destruct (nonempty k') eqn:Hk.
    + destruct (run_related_parts run !! k') as [url|] eqn:Hlook; simpl.
      * destruct (nonempty url); discriminate.
      * intros [= <-]. split; [reflexivity|].
        exists others. apply nonempty_true in Hk. auto.
    + simpl. discriminate.
  - intros (Hraw & others & Hl & Hk & Hlook).
    rewrite Hraw, Hl. unfold resolve_hyperlink.
    apply nonempty_true in Hk. now rewrite Hk, Hlook.
Qed.

(** A run that renders gives the empty string exactly when its text is
    blank and it is no resolved hyperlink: a blank run inside a resolved
    hyperlink still gives an anchor element. *)
Theorem run_output_empty_iff (run : Run) (html : str) :
  run_to_html run = Ok html ->
  (html = [] <->
   strip (run_text run) = [] /\ ~ exists url, links_to run url).
Proof.
  unfold run_to_html, links_to.
  destruct (is_raw_markup (strip (run_text run))) eqn:Hraw.
  { intros [= <-]. apply raw_markup_nonempty in Hraw. tauto. }
  assert (Hspan : span_path run = [] <-> strip (run_text run) = []).
  { split; [|apply span_path_blank].
    destruct (strip (run_text run)) eqn:E; [reflexivity|].
    intros Hs. exfalso. apply (span_path_nonempty run); [|exact Hs].
    rewrite E. discriminate. }
  destruct (run_hyperlinks run) as [|[k|] others] eqn:Hl.
  - intros [= <-]. rewrite Hspan. split; [|tauto].
    intros Hb. split; [exact Hb|]. intros (url & k & o & ? & _). discriminate.
  - unfold resolve_hyperlink. destruct (nonempty k) eqn:Hk.
    + destruct (run_related_parts run !! k) as [url|] eqn:Hlook; simpl;
        [|discriminate].
      destruct (nonempty url) eqn:Hu.
      * intros [= <-]. split; [discriminate|].
        intros [_ Hno]. exfalso. apply Hno. exists url, k, others.
        apply nonempty_true in Hk, Hu. auto.
      * intros [= <-]. rewrite Hspan. split; [|tauto].
        intros Hb. split; [exact Hb|].
        intros (url' & k' & o' & [= <- <-] & _ & Hlook' & Hne).
        rewrite Hlook in Hlook'. injection Hlook' as <-.
        apply nonempty_false in Hu. contradiction.
    + simpl. intros [= <-]. rewrite Hspan. split; [|tauto].
      intros Hb. split; [exact Hb|].
      intros (url' & k' & o' & [= <- <-] & Hne & _).
      apply nonempty_false in Hk. contradiction.
  - simpl. intros [= <-]. rewrite Hspan. split; [|tauto].
    intros Hb. split; [exact Hb|]. intros (url & k & o & ? & _). discriminate.
Qed.

End RunFacts.

Module EscapeFacts.
Import RunRenderer.

(** No angle bracket. *)
Definition no_angle (c : N) : Prop := c <> 60 /\ c <> 62.

(** No angle bracket and no newline. *)
Definition plain_char (c : N) : Prop := c <> 60 /\ c <> 62 /\ c <> 10.

(** The four cases of the escaping of one character. *)
Lemma escape_char_view (c : N) :
  (c = 38 /\ escape_char c = [38; 97; 109; 112; 59])
  \/ (c = 60 /\ escape_char c = [38; 108; 116; 59])
  \/ (c = 62 /\ escape_char c = [38; 103; 116; 59])
  \/ (c <> 38 /\ c <> 60 /\ c <> 62 /\ escape_char c = [c]).
Proof.
  unfold escape_char.
  destruct (c =? 38) eqn:E38; [apply N.eqb_eq in E38; subst; now left|].
  destruct (c =? 60) eqn:E60; [apply N.eqb_eq in E60; subst; right; now left|].
  destruct (c =? 62) eqn:E62;
    [apply N.eqb_eq in E62; subst; right; right; now left|].
  apply N.eqb_neq in E38, E60, E62. right; right; right. auto.
Qed.

Lemma escape_char_no_angle (c : N) : Forall no_angle (escape_char c).
Proof.
  destruct (escape_char_view c)
    as [[_ ->]|[[_ ->]|[[_ ->]|(_ & H60 & H62 & ->)]]];
    repeat constructor; try discriminate; assumption.
Qed.

Lemma Forall_flat_map_intro {A B} (P : B -> Prop) (f : A -> list B) (l : list A) :
  (forall a, Forall P (f a)) -> Forall P (flat_map f l).
Proof.
  intros Hf. induction l as [|a l IH]; simpl; [constructor|].
  apply Forall_app. split; [apply Hf|exact IH].
Qed.

Lemma split_pieces (P : N -> Prop) (c : N) (s : str) :
  Forall P s -> Forall (Forall P) (split c s).
Proof.
  induction 1 as [|x s Hx _ IH]; simpl.
  - repeat constructor.
  - destruct (x =? c).
    + constructor; [constructor|exact IH].
    + destruct (split c s) as [|piece rest].
      * repeat constructor. exact Hx.
      * inversion IH; subst. constructor; [now constructor|assumption].
Qed.

Lemma split_pieces_no_separator (c : N) (s : str) :
  Forall (Forall (fun x => x <> c)) (split c s).
Proof.
  induction s as [|x s IH]; simpl.
  - repeat constructor.
  - destruct (x =? c) eqn:E.
    + constructor; [constructor|exact IH].
    + apply N.eqb_neq in E. destruct (split c s) as [|piece rest].
      * repeat constructor. exact E.
      * inversion IH; subst. constructor; [now constructor|assumption].
Qed.

Lemma lstrip_keeps_all (P : N -> Prop) (s : str) :
  Forall P s -> Forall P (lstrip s).
Proof.
  induction 1 as [|x s Hx Hs IH]; simpl; [constructor|].
  destruct (isspace x); [exact IH|now constructor].
Qed.

Lemma strip_keeps_all (P : N -> Prop) (s : str) :
  Forall P s -> Forall P (strip s).
Proof.
  intros Hs. unfold strip, rstrip.
  apply Forall_rev, lstrip_keeps_all, Forall_rev, lstrip_keeps_all, Hs.
Qed.

Lemma Forall_both {A} (P Q : A -> Prop) (l : list (list A)) :
  Forall (Forall P) l -> Forall (Forall Q) l ->
  Forall (Forall (fun x => P x /\ Q x)) l.
Proof.
  induction 1 as [|x l Hx _ IH]; intros HQ; [constructor|].
  inversion HQ as [|? ? Hqx Hql]; subst. constructor; [|now apply IH].
  clear -Hx Hqx. induction Hx as [|a x Ha _ IHx]; [constructor|].
  inversion Hqx; subst. constructor; auto.
Qed.

Lemma trimmed_lines_keep (P : N -> Prop) (lines : list str) :
  Forall (Forall P) lines ->
  Forall (Forall P)
    (map strip (List.filter (fun line => nonempty (strip line)) lines)).
Proof.
  induction 1 as [|line lines Hl _ IH]; simpl; [constructor|].
  destruct (nonempty (strip line)); [|exact IH].
  simpl. constructor; [now apply strip_keeps_all|exact IH].
Qed.

Lemma no_newline (s : str) :
  existsb (N.eqb 10) s = false -> Forall (fun c => c <> 10) s.
Proof.
  induction s as [|c s IH]; [constructor|].
  change (existsb (N.eqb 10) (c :: s))
    with ((10 =? c) || existsb (N.eqb 10) s).
  intros [Hc Hs]%orb_false_elim. constructor; [|now apply IH].
  apply N.eqb_neq in Hc. congruence.
Qed.

(** The escaped text holds no angle bracket, and the body of a span is a
    sequence of lines joined by the line-break element in which no line
    holds an angle bracket or a newline: the only markup in the body are
    the line breaks put there by the renderer. *)
Theorem span_body_is_plain_lines (text : str) :
  Forall no_angle (escape text)
  /\ exists lines,
       break_lines (escape text) = join (py "<br>") lines
       /\ Forall (Forall plain_char) lines.
Proof.
  assert (Hesc : Forall no_angle (escape text)).
  { rewrite escape_one_pass. apply Forall_flat_map_intro, escape_char_no_angle. }
  split; [exact Hesc|].
  unfold break_lines. destruct (existsb (N.eqb 10) (escape text)) eqn:Hnl.
  - eexists. split; [reflexivity|].
    apply trimmed_lines_keep.
    pose proof (split_pieces no_angle 10 _ Hesc) as Hp.
    pose proof (split_pieces_no_separator 10 (escape text)) as Hq.
    pose proof (Forall_both _ _ _ Hp Hq) as Hpq.
    eapply Forall_impl; [exact Hpq|]. intros line Hline.
    eapply Forall_impl; [exact Hline|]. intros c [[H1 H2] H3].
    repeat split; assumption.
  - exists [escape text]. split; [reflexivity|].
    constructor; [|constructor].
    apply no_newline in Hnl.
    clear -Hesc Hnl. induction Hesc as [|c s [H1 H2] _ IH]; [constructor|].
    inversion Hnl; subst. constructor; [repeat split; assumption|now apply IH].
Qed.

(** Escaping loses nothing: two texts with the same escaped form are the
    same text. *)
Theorem escape_injective (t1 t2 : str) : escape t1 = escape t2 -> t1 = t2.
Proof.
  rewrite !escape_one_pass. revert t2.
  induction t1 as [|c1 t1 IH]; intros [|c2 t2] H.
  - reflexivity.
  - exfalso.
    change (flat_map escape_char (c2 :: t2))
      with (escape_char c2 ++ flat_map escape_char t2) in H.
    destruct (escape_char_view c2)
      as [[_ E]|[[_ E]|[[_ E]|(_ & _ & _ & E)]]]; rewrite E in H;
      discriminate.
  - exfalso.
    change (flat_map escape_char (c1 :: t1))
      with (escape_char c1 ++ flat_map escape_char t1) in H.
    destruct (escape_char_view c1)
      as [[_ E]|[[_ E]|[[_ E]|(_ & _ & _ & E)]]]; rewrite E in H;
      discriminate.
  - change (flat_map escape_char (c1 :: t1))
      with (escape_char c1 ++ flat_map escape_char t1) in H.
    change (flat_map escape_char (c2 :: t2))
      with (escape_char c2 ++ flat_map escape_char t2) in H.
    destruct (escape_char_view c1)
      as [[-> E1]|[[-> E1]|[[-> E1]|(Ha1 & Hl1 & Hg1 & E1)]]];
      destruct (escape_char_view c2)
        as [[-> E2]|[[-> E2]|[[-> E2]|(Ha2 & Hl2 & Hg2 & E2)]]];
      rewrite ?E1, ?E2 in H; simpl in H; try discriminate;
      try (injection H as H; f_equal; now apply IH);
      try (injection H as Hc H; congruence).
    injection H as -> H. f_equal. now apply IH.
Qed.

End EscapeFacts.

Module ParagraphFacts.

(** The classifier never answers with a flag and a type that disagree:
    either no list item and no type, or a list item with its type. *)
Theorem detect_list_type_consistent (para : Paragraph) :
  detect_list_type para = (false, None)
  \/ exists t, detect_list_type para = (true, Some t).
Proof.
  unfold detect_list_type.
  destruct (match strip (para_text para) with
            | [] => false
            | c :: _ => existsb (N.eqb c) bullet_symbols
            end); [right; eauto|].
  destruct (contains (py "bullet") _); [right; eauto|].
  destruct (contains (py "number") _); [right; eauto|].
  destruct (para_pPr para) as [pPr|]; [|now left].
  destruct (pPr_numPr pPr) as [np|]; [|now left].
  destruct (element_truthy np); [|now left].
  destruct (_ =? 0)%Z; right; eauto.
Qed.

(** A list comprehension raises exactly at its first element that
    raises. *)
Lemma mapM_raises_iff {A B} (f : A -> exc B) (l : list A) (e : PyError) :
  mapM f l = Raise e <->
  exists before x after,
    l = before ++ x :: after
    /\ Forall (fun a => exists b, f a = Ok b) before
    /\ f x = Raise e.
Proof.
  split.
  - induction l as [|a l IH]; simpl; [discriminate|].
    destruct (f a) as [b|e'] eqn:Ha; simpl.
    + destruct (mapM f l) as [bs|e'']; simpl; [discriminate|].
      intros [= ->]. destruct (IH eq_refl) as (before & x & after & -> & Hb & Hx).
      exists (a :: before), x, after. split; [reflexivity|].
      split; [constructor; eauto|exact Hx].
    + intros [= ->]. exists [], a, l. repeat split; [constructor|exact Ha].
  - intros (before & x & after & -> & Hb & Hx).
    induction Hb as [|a before [b Ha] _ IH]; simpl.
    + now rewrite Hx.
    + rewrite Ha. simpl. now rewrite IH.
Qed.

(** The exception of the first run that raises is raised by
    [para_to_html], before the text, the style and the numbering of the
    paragraph are looked at and whatever the runs behind it are. *)
Theorem para_to_html_raises_with_first_run
    (para : Paragraph) (before after : list Run) (run : Run) (e : PyError) :
  para_runs para = before ++ run :: after ->
  Forall (fun r => exists html, run_to_html r = Ok html) before ->
  run_to_html run = Raise e ->
  para_to_html para = Raise e.
Proof.
  intros Hruns Hbefore Hrun.
  assert (Hmap : mapM run_to_html (para_runs para) = Raise e).
  { apply mapM_raises_iff. exists before, run, after. auto. }
  unfold para_to_html. now rewrite Hmap.
Qed.

(** What [para_to_html] returns: nothing and no list type when the run
    renderings together are blank, whatever the classifier says; else
    the renderings, concatenated in order, inside a list-item element
    with the type of the classifier or inside a paragraph element. *)
Theorem para_to_html_result (para : Paragraph) (html : str)
    (detected : option ListType) :
  para_to_html para = Ok (html, detected) ->
  exists parts,
    mapM run_to_html (para_runs para) = Ok parts
    /\ ((strip (concat parts) = [] /\ html = [] /\ detected = None)
        \/ (strip (concat parts) <> []
            /\ detected = snd (detect_list_type para)
            /\ match detected with
               | Some _ => exists style,
                   html = py "<li " ++ style ++ py ">" ++ concat parts
                            ++ py "</li>"
               | None => html = py "<p>" ++ concat parts ++ py "</p>"
               end)).
Proof.
  unfold para_to_html.
  destruct (mapM run_to_html (para_runs para)) as [parts|e]; simpl;
    [|discriminate].
  rewrite join_nil_concat. intros H. exists parts. split; [reflexivity|].
  destruct (nonempty (strip (concat parts))) eqn:Hne; simpl in H.
  - right. apply nonempty_true in Hne. split; [exact Hne|].
    destruct (detect_list_type_consistent para) as [Hd|[t Hd]];
      rewrite Hd in H |- *; injection H as <- <-; simpl; eauto.
  - left. apply nonempty_false in Hne. injection H as <- <-. auto.
Qed.

End ParagraphFacts.

(** * Further properties of the section splitter *)

Module SplitterFacts.
Import SectionSplitter.

(** The section counter is the number of sentinels met so far: it moves
    by one at each sentinel, at nothing else, and never goes back. *)
Theorem section_counter_counts_sentinels
    (before after : list Paragraph) (s s' : Locals) :
  paragraph_loop init_locals before = Ok s ->
  paragraph_loop init_locals (before ++ after) = Ok s' ->
  current_section s = length (List.filter is_sentinel before)
  /\ current_section s'
     = (current_section s + length (List.filter is_sentinel after))%nat
  /\ (current_section s <= current_section s')%nat.
Proof.
  intros Hb Hall.
  pose proof (section_counts_sentinels _ _ _ Hb) as Hc.
  apply paragraph_loop_app_ok in Hall as (s1 & Hb1 & Hafter).
  rewrite Hb in Hb1. injection Hb1 as <-.
  pose proof (section_counts_sentinels _ _ _ Hafter) as Hc'.
  simpl in Hc. repeat split; lia.
Qed.

(** *** Paragraphs that do not render *)

Lemma loop_body_ok_iff (s : Locals) (para : Paragraph) :
  (exists s', loop_body s para = Ok s') <->
  is_sentinel para = true \/ renders para.
Proof.
  destruct (is_sentinel para) eqn:Hs.
  - rewrite loop_body_sentinel by assumption. split; eauto.
  - rewrite loop_body_route by assumption. unfold renders.
    destruct (para_to_html para) as [[html d]|e']; simpl.
    + split; eauto.
    + split; [intros [? ?]; discriminate|].
      intros [?|[? ?]]; discriminate.
Qed.

Lemma paragraph_loop_ok_renders (paragraphs : list Paragraph) :
  forall s s',
    paragraph_loop s paragraphs = Ok s' ->
    Forall (fun p => is_sentinel p = true \/ renders p) paragraphs.
Proof.
  induction paragraphs as [|para rest IH]; intros s s' Hloop; [constructor|].
  apply paragraph_loop_cons_ok in Hloop as (s1 & Hbody & Hloop).
  constructor; [|exact (IH s1 s' Hloop)].
  apply (loop_body_ok_iff s para). eauto.
Qed.

(** The conversion returns a result only if every paragraph that is no
    sentinel renders, in whatever section it stands: [para_to_html] is
    called at line 134 before the section is looked at, so a paragraph
    behind the third sentinel, whose content is ignored, must render all
    the same. *)
Theorem conversion_returns_only_if_all_render
    (paragraphs : list Paragraph) (r : Result) :
  docx_to_html_sections paragraphs = Ok r ->
  Forall (fun p => is_sentinel p = true \/ renders p) paragraphs.
Proof.
  intros Hdocx. apply docx_ok in Hdocx as (s & Hloop & _).
  exact (paragraph_loop_ok_renders paragraphs init_locals s Hloop).
Qed.

(** *** Documents without content *)

Lemma blank_loop (paragraphs : list Paragraph) :
  Forall (fun p => is_sentinel p = true \/ para_to_html p = Ok ([], None))
    paragraphs ->
  forall s,
    sections_0 s = [] -> sections_2 s = [] -> acc_of s = empty_acc ->
    exists s',
      paragraph_loop s paragraphs = Ok s'
      /\ sections_0 s' = [] /\ sections_2 s' = [] /\ acc_of s' = empty_acc.
Proof.
  induction 1 as [|p rest Hp _ IH]; intros s H0 H2 Ha; simpl; [eauto|].
  destruct (is_sentinel p) eqn:Hs.
  - rewrite loop_body_sentinel by assumption. simpl.
    destruct (on_sentinel_effect s) as (_ & H0' & H2' & Ha').
    apply IH; [congruence|congruence|].
    rewrite Ha', Ha. now destruct (Nat.eqb (current_section s) 1).
  - destruct Hp as [Hp|Hp]; [congruence|].
    rewrite loop_body_route, Hp by assumption. simpl.
    now apply IH.
Qed.

(** A document in which every paragraph is a sentinel or renders to
    nothing (an empty document, blank paragraphs, sentinels only) gives
    the empty result. *)
Theorem blank_document_empty_result (paragraphs : list Paragraph) :
  Forall (fun p => is_sentinel p = true \/ para_to_html p = Ok ([], None))
    paragraphs ->
  docx_to_html_sections paragraphs
  = Ok {| head := []; text := []; faq := [] |}.
Proof.
  intros Hblank.
  destruct (blank_loop paragraphs Hblank init_locals eq_refl eq_refl eq_refl)
    as (s & Hloop & H0 & H2 & Ha).
  unfold docx_to_html_sections. rewrite Hloop. simpl. f_equal.
  unfold finish. rewrite final_flush_acc, H0, H2, Ha.
  change (sections_1 s) with (out (acc_of s)). rewrite Ha.
  now destruct (Nat.eqb (current_section s) 1).
Qed.

(** *** After the second sentinel *)

Lemma low_outputs_frozen (paragraphs : list Paragraph) :
  forall s s',
    (2 <= current_section s)%nat ->
    paragraph_loop s paragraphs = Ok s' ->
    (2 <= current_section s')%nat
    /\ sections_0 s' = sections_0 s
    /\ acc_of s' = acc_of s.
Proof.
  induction paragraphs as [|para rest IH]; intros s s' Hsec Hloop.
  - injection Hloop as <-. auto.
  - apply paragraph_loop_cons_ok in Hloop as (s1 & Hbody & Hloop).
    pose proof (loop_body_section s s1 para Hbody) as Hc.
    pose proof (loop_body_acc s s1 para Hbody) as Ha.
    assert (Hsec1 : (2 <= current_section s1)%nat) by lia.
    destruct (IH s1 s' Hsec1 Hloop) as (Hc' & H0' & Ha').
    split; [exact Hc'|]. split.
    + rewrite H0'. apply (head_frozen [para] s s1); [lia|].
      now apply loop_body_singleton.
    + rewrite Ha', Ha.
      assert (E1 : Nat.eqb (current_section s) 1 = false)
        by (apply Nat.eqb_neq; lia).
      assert (Ele : Nat.leb (current_section s) 1 = false)
        by (apply Nat.leb_gt; lia).
      rewrite E1, Ele. now destruct (is_sentinel para).
Qed.

(** Once two sentinels have been met, the head and the body text of the
    result are settled: whatever paragraphs follow, FAQ content or more
    sentinels, they are those of the document cut at that point. *)
Theorem head_and_text_settled
    (before after : list Paragraph) (s : Locals) (r : Result) :
  paragraph_loop init_locals before = Ok s ->
  (2 <= current_section s)%nat ->
  docx_to_html_sections (before ++ after) = Ok r ->
  head r = head (finish s) /\ text r = text (finish s).
Proof.
  intros Hb Hsec Hdocx.
  apply docx_ok in Hdocx as (s' & Hloop & ->).
  apply paragraph_loop_app_ok in Hloop as (s1 & Hb1 & Hafter).
  rewrite Hb in Hb1. injection Hb1 as <-.
  destruct (low_outputs_frozen after s s' Hsec Hafter) as (Hc' & H0 & Ha).
  rewrite !finish_beyond by lia. simpl.
  change (sections_1 s') with (out (acc_of s')).
  change (sections_1 s) with (out (acc_of s)).
  now rewrite H0, Ha.
Qed.

(** *** The entries of the body text *)

(** A paragraph element, or a list container with matching tags. *)
Definition text_entry (e : str) : Prop :=
  (exists body, e = py "<p>" ++ body ++ py "</p>")
  \/ (exists t body,
        e = py "<" ++ tag t ++ py ">" ++ body ++ py "</" ++ tag t ++ py ">").

(** The accumulator has an active type exactly when it holds items, and
    every entry it has put out is well formed. *)
Definition acc_sound (a : Acc) : Prop :=
  (buf a = [] <-> kind a = None) /\ Forall text_entry (out a).

Lemma acc_sound_flush (a : Acc) : acc_sound a -> acc_sound (flush a).
Proof.
  intros [Hk Ho]. unfold flush.
  destruct (buf a) as [|i items] eqn:Hb; simpl.
  - split; [rewrite Hb; exact Hk|exact Ho].
  - split; [tauto|]. apply Forall_app. split; [exact Ho|].
    constructor; [|constructor].
    destruct (kind a) as [t|] eqn:Hkind.
    + right. exists t. unfold wrap_list. eauto.
    + exfalso. destruct Hk as [_ Hk]. specialize (Hk eq_refl). discriminate.
Qed.

Definition event_sound (e : Event) : Prop :=
  match e with
  | EPlain html => exists body, html = py "<p>" ++ body ++ py "</p>"
  | _ => True
  end.

Lemma acc_sound_step (a : Acc) (e : Event) :
  acc_sound a -> event_sound e -> acc_sound (acc_step a e).
Proof.
  intros Ha He. destruct e as [html t|html|]; simpl.
  - unfold accumulate.
    destruct (nonempty (buf a) && negb (option_ListType_eqb (kind a) (Some t))).
    + destruct (acc_sound_flush a Ha) as [_ Ho]. split; simpl; [|exact Ho].
      split; [intros H; now apply app_eq_nil in H as [_ ?]|discriminate].
    + destruct Ha as [_ Ho]. split; simpl; [|exact Ho].
      split; [intros H; now apply app_eq_nil in H as [_ ?]|discriminate].
  - destruct (acc_sound_flush a Ha) as [Hk Ho]. split; simpl; [exact Hk|].
    apply Forall_app. split; [exact Ho|].
    constructor; [now left|constructor].
  - now apply acc_sound_flush.
Qed.

Lemma events_sound (sec : nat) (para : Paragraph) :
  Forall event_sound (events sec [para]).
Proof.
  unfold events. simpl. rewrite app_nil_r.
  destruct (element_of para) as [[html [t|]]|] eqn:He;
    try (repeat constructor; fail).
  destruct (Nat.eqb sec 0); repeat constructor.
  exact (element_of_shape para html None He).
Qed.

Lemma acc_sound_fold (es : list Event) :
  Forall event_sound es ->
  forall a, acc_sound a -> acc_sound (fold_left acc_step es a).
Proof.
  induction 1 as [|e es He _ IH]; intros a Ha; simpl; [exact Ha|].
  apply IH. now apply acc_sound_step.
Qed.

Lemma acc_sound_loop (paragraphs : list Paragraph) :
  forall s s',
    paragraph_loop s paragraphs = Ok s' ->
    acc_sound (acc_of s) -> acc_sound (acc_of s').
Proof.
  induction paragraphs as [|para rest IH]; intros s s' Hloop Ha.
  - now injection Hloop as <-.
  - apply paragraph_loop_cons_ok in Hloop as (s1 & Hbody & Hloop).
    apply (IH s1 s' Hloop). rewrite (loop_body_acc s s1 para Hbody).
    destruct (is_sentinel para).
    + destruct (Nat.eqb (current_section s) 1);
        [now apply acc_sound_flush|exact Ha].
    + destruct (Nat.leb (current_section s) 1); [|exact Ha].
      apply acc_sound_fold; [apply events_sound|exact Ha].
Qed.

(** In every state the loop reaches, a list type is active exactly when
    the buffer holds items, so [wrap_list] is never given items without a
    type; and every entry of the body text is a paragraph element, a ul
    element or an ol element, never a bare run of list items. *)
Theorem body_text_entries_well_formed (paragraphs : list Paragraph) (s : Locals) :
  paragraph_loop init_locals paragraphs = Ok s ->
  (list_buffer s = [] <-> list_type s = None)
  /\ Forall text_entry (final_flush s).
Proof.
  intros Hloop.
  assert (Hinit : acc_sound (acc_of init_locals)).
  { split; [simpl; tauto|constructor]. }
  pose proof (acc_sound_loop paragraphs _ _ Hloop Hinit) as Hs.
  split; [exact (proj1 Hs)|].
  rewrite final_flush_acc.
  destruct (Nat.eqb (current_section s) 1); [|exact (proj2 Hs)].
  exact (proj2 (acc_sound_flush _ Hs)).
Qed.

(** *** Grouping of consecutive list items *)

(** The paragraph is no sentinel and renders to a list item of type [t]. *)
Definition is_item (t : ListType) (para : Paragraph) : Prop :=
  is_sentinel para = false /\ exists html, element_of para = Some (html, Some t).

(** The list items the paragraphs render to. *)
Definition items_of (paragraphs : list Paragraph) : list str :=
  flat_map (fun para =>
    match element_of para with
    | Some (html, Some _) => [html]
    | _ => []
    end) paragraphs.

Lemma events_of_items (t : ListType) (paragraphs : list Paragraph) :
  Forall (is_item t) paragraphs ->
  events 1 paragraphs = map (fun html => EItem html t) (items_of paragraphs).
Proof.
  induction 1 as [|para rest [_ [html He]] _ IH]; [reflexivity|].
  change (events 1 (para :: rest))
    with (match element_of para with
          | Some (html, Some t) => [EItem html t]
          | Some (html, None) => [EPlain html]
          | None => []
          end ++ events 1 rest).
  change (items_of (para :: rest))
    with (match element_of para with
          | Some (html, Some _) => [html]
          | _ => []
          end ++ items_of rest).
  rewrite He, IH. reflexivity.
Qed.

Lemma items_of_nonempty (t : ListType) (paragraphs : list Paragraph) :
  Forall (is_item t) paragraphs -> paragraphs <> [] ->
  items_of paragraphs <> [].
Proof.
  intros [|para rest [_ [html He]] _]; [congruence|]. intros _.
  unfold items_of. simpl. rewrite He. discriminate.
Qed.

Lemma items_are_free (t : ListType) (paragraphs : list Paragraph) :
  Forall (is_item t) paragraphs ->
  Forall (fun para => is_sentinel para = false) paragraphs.
Proof. intros H. eapply Forall_impl; [exact H|]. now intros para [Hs _]. Qed.

Lemma option_ListType_eqb_refl (t : ListType) :
  option_ListType_eqb (Some t) (Some t) = true.
Proof. now destruct t. Qed.

(** Items of the active type, or arriving at an empty buffer, only extend
    the buffer. *)
Lemma fold_same_type (t : ListType) (hs : list str) :
  forall a,
    buf a = [] \/ kind a = Some t ->
    hs <> [] ->
    fold_left acc_step (map (fun html => EItem html t) hs) a
    = {| out := out a; buf := buf a ++ hs; kind := Some t |}.
Proof.
  induction hs as [|h hs IH]; intros a Ha Hne; [congruence|].
  simpl.
  assert (Hstep : accumulate h t a
            = {| out := out a; buf := buf a ++ [h]; kind := Some t |}).
  { unfold accumulate. destruct Ha as [Hb|Hk].
    - destruct a as [o b k]. simpl in Hb. subst b. reflexivity.
    - rewrite Hk, option_ListType_eqb_refl, andb_false_r. reflexivity. }
  rewrite Hstep. destruct hs as [|h' hs'].
  - reflexivity.
  - rewrite IH; [|now right|discriminate]. simpl.
    now rewrite <- app_assoc.
Qed.

Lemma accumulate_other_type (t1 t2 : ListType) (o : list str) g gs h :
  t1 <> t2 ->
  accumulate h t2 {| out := o; buf := g :: gs; kind := Some t1 |}
  = {| out := o ++ [wrap_list (g :: gs) (Some t1)]; buf := [h];
       kind := Some t2 |}.
Proof.
  intros Hty. unfold accumulate, flush. simpl.
  destruct t1, t2; try congruence; reflexivity.
Qed.

Lemma strip_tagged (m : str) : strip (60 :: m ++ [62]) = 60 :: m ++ [62].
Proof.
  unfold strip, rstrip.
  rewrite (lstrip_keeps 60 (m ++ [62])) by reflexivity.
  replace (rev (60 :: m ++ [62])) with (62 :: rev m ++ [60]).
  2:{ simpl. now rewrite rev_app_distr. }
  rewrite (lstrip_keeps 62 (rev m ++ [60])) by reflexivity.
  simpl. rewrite rev_app_distr, rev_involutive. reflexivity.
Qed.

Lemma strip_tagged_eq (w m : str) : w = 60 :: m ++ [62] -> strip w = w.
Proof. intros ->. apply strip_tagged. Qed.

(** In the body-text section, a run of list items of one type followed by
    a run of list items of another type gives exactly two list elements,
    each holding the items of its run in order. *)
Theorem consecutive_items_grouped
    (t1 t2 : ListType) (first second after : list Paragraph)
    (m1 m2 : Paragraph) (r : Result) :
  t1 <> t2 ->
  Forall (is_item t1) first -> first <> [] ->
  Forall (is_item t2) second -> second <> [] ->
  is_sentinel m1 = true -> is_sentinel m2 = true ->
  docx_to_html_sections (m1 :: first ++ second ++ m2 :: after) = Ok r ->
  text r
  = (py "<" ++ tag t1 ++ py ">" ++ concat (items_of first)
       ++ py "</" ++ tag t1 ++ py ">")
    ++ (py "<" ++ tag t2 ++ py ">" ++ concat (items_of second)
          ++ py "</" ++ tag t2 ++ py ">").
Proof.
  intros Hty H1 Hne1 H2 Hne2 Hm1 Hm2 Hdocx.
  apply docx_ok in Hdocx as (s & Hloop & ->).
  apply paragraph_loop_cons_ok in Hloop as (s1 & Hb1 & Hloop).
  apply paragraph_loop_app_ok in Hloop as (sU & HlU & Hloop).
  apply paragraph_loop_app_ok in Hloop as (sO & HlO & Hloop).
  apply paragraph_loop_cons_ok in Hloop as (s2 & Hb2 & Hloop).
  rewrite loop_body_sentinel in Hb1, Hb2 by assumption.
  injection Hb1 as <-. injection Hb2 as <-.
  destruct (on_sentinel_effect init_locals) as (Hc1 & _ & _ & Ha1).
  change (current_section init_locals) with 0%nat in Hc1, Ha1.
  cbn [Nat.eqb] in Ha1. change (acc_of init_locals) with empty_acc in Ha1.
  assert (Hle1 : (current_section (on_sentinel init_locals) <= 1)%nat) by lia.
  destruct (low_phase first (items_are_free t1 first H1) _ sU Hle1 HlU)
    as (HcU & _ & _ & HaU).
  rewrite Hc1 in HcU, HaU.
  assert (HleU : (current_section sU <= 1)%nat) by lia.
  destruct (low_phase second (items_are_free t2 second H2) _ sO HleU HlO)
    as (HcO & _ & _ & HaO).
  rewrite HcU in HcO, HaO.
  destruct (on_sentinel_effect sO) as (Hc2 & _ & _ & Ha2).
  rewrite HcO in Hc2, Ha2. cbn [Nat.eqb] in Ha2.
  assert (Hge : (2 <= current_section (on_sentinel sO))%nat) by lia.
  destruct (low_outputs_frozen after _ s Hge Hloop) as (Hc & _ & Ha).
  (* the accumulator after the first run, then after the second *)
  pose proof (items_of_nonempty t1 first H1 Hne1) as Hi1.
  pose proof (items_of_nonempty t2 second H2 Hne2) as Hi2.
  rewrite Ha1, (events_of_items t1 first H1) in HaU.
  rewrite fold_same_type in HaU; [|now left|exact Hi1].
  rewrite HaU, (events_of_items t2 second H2) in HaO.
  destruct (items_of second) as [|h hs] eqn:E2; [congruence|].
  destruct (items_of first) as [|g gs] eqn:E1; [congruence|].
  cbn [map fold_left acc_step out buf empty_acc app] in HaO.
  rewrite accumulate_other_type in HaO by assumption.
  assert (HaO' : acc_of sO
            = {| out := [wrap_list (g :: gs) (Some t1)];
                 buf := h :: hs; kind := Some t2 |}).
  { rewrite HaO. destruct hs as [|h' hs']; [reflexivity|].
    rewrite fold_same_type; [reflexivity|now right|discriminate]. }
  rewrite finish_beyond by lia. cbn [text].
  change (sections_1 s) with (out (acc_of s)).
  rewrite Ha, Ha2, HaO'. unfold flush. cbn [nonempty buf out kind app join].
  unfold wrap_list. rewrite !join_nil_concat.
  set (body1 := concat (g :: gs)). set (body2 := concat (h :: hs)).
  apply (strip_tagged_eq _
           (tag t1 ++ py ">" ++ body1 ++ py "</" ++ tag t1 ++ py ">"
              ++ py "<" ++ tag t2 ++ py ">" ++ body2 ++ py "</" ++ tag t2)).
  rewrite <- !app_assoc. reflexivity.
Qed.

(** *** Outputs only grow *)

Lemma flush_out_grows (a : Acc) : exists k, out (flush a) = out a ++ k.
Proof.
  unfold flush. destruct (nonempty (buf a)); simpl; [eauto|].
  exists []. now rewrite app_nil_r.
Qed.

Lemma acc_step_out_grows (a : Acc) (e : Event) :
  exists k, out (acc_step a e) = out a ++ k.
Proof.
  destruct e as [html t|html|]; simpl.
  - unfold accumulate.
    destruct (nonempty (buf a) && negb (option_ListType_eqb (kind a) (Some t)));
      simpl; [apply flush_out_grows|].
    exists []. now rewrite app_nil_r.
  - destruct (flush_out_grows a) as [k ->]. exists (k ++ [html]).
    now rewrite app_assoc.
  - apply flush_out_grows.
Qed.

Lemma fold_out_grows (es : list Event) :
  forall a, exists k, out (fold_left acc_step es a) = out a ++ k.
Proof.
  induction es as [|e es IH]; intros a; simpl.
  - exists []. now rewrite app_nil_r.
  - destruct (IH (acc_step a e)) as [k ->].
    destruct (acc_step_out_grows a e) as [k' ->].
    exists (k' ++ k). now rewrite app_assoc.
Qed.

Lemma loop_body_grows (s s' : Locals) (para : Paragraph) :
  loop_body s para = Ok s' ->
  (exists k, sections_0 s' = sections_0 s ++ k)
  /\ (exists k, sections_1 s' = sections_1 s ++ k)
  /\ (exists k, sections_2 s' = sections_2 s ++ k).
Proof.
  intros Hbody.
  assert (Hsame : forall {A} (l : list A), exists k, l = l ++ k).
  { intros A l. exists []. now rewrite app_nil_r. }
  split; [|split].
  - destruct (is_sentinel para) eqn:Hs.
    + rewrite loop_body_sentinel in Hbody by assumption.
      injection Hbody as <-.
      destruct (on_sentinel_effect s) as (_ & -> & _). apply Hsame.
    + destruct (Nat.leb (current_section s) 1) eqn:Hle.
      * apply Nat.leb_le in Hle.
        destruct (low_step s s' para Hle Hs Hbody) as (_ & _ & -> & _). eauto.
      * apply Nat.leb_gt in Hle.
        rewrite (head_frozen [para] s s'); [apply Hsame|lia|].
        now apply loop_body_singleton.
  - change (exists k, out (acc_of s') = out (acc_of s) ++ k).
    rewrite (loop_body_acc s s' para Hbody).
    destruct (is_sentinel para).
    + destruct (Nat.eqb (current_section s) 1);
        [apply flush_out_grows|apply Hsame].
    + destruct (Nat.leb (current_section s) 1);
        [apply fold_out_grows|apply Hsame].
  - destruct (is_sentinel para) eqn:Hs.
    + rewrite loop_body_sentinel in Hbody by assumption.
      injection Hbody as <-.
      destruct (on_sentinel_effect s) as (_ & _ & -> & _). apply Hsame.
    + destruct (Nat.leb (current_section s) 1) eqn:Hle.
      * apply Nat.leb_le in Hle.
        destruct (low_step s s' para Hle Hs Hbody) as (_ & -> & _).
        apply Hsame.
      * apply Nat.leb_gt in Hle. apply loop_body_singleton in Hbody.
        assert (Hfree : Forall (fun p => is_sentinel p = false) [para])
          by (constructor; [exact Hs|constructor]).
        destruct (Nat.eq_dec (current_section s) 2) as [H2|H2].
        -- destruct (faq_phase [para] Hfree s s' H2 Hbody) as (_ & _ & _ & ->).
           eauto.
        -- assert (Hgt : (2 < current_section s)%nat) by lia.
           destruct (beyond_phase [para] s s' Hgt Hbody) as (_ & _ & _ & ->).
           apply Hsame.
Qed.

(** The loop only ever appends to the three section outputs: what has
    been put into the head, the body text or the FAQ items by a prefix of
    the document stays in front, unchanged, whatever follows. *)
Theorem outputs_only_grow
    (before after : list Paragraph) (s s' : Locals) :
  paragraph_loop init_locals before = Ok s ->
  paragraph_loop init_locals (before ++ after) = Ok s' ->
  (exists k, sections_0 s' = sections_0 s ++ k)
  /\ (exists k, sections_1 s' = sections_1 s ++ k)
  /\ (exists k, sections_2 s' = sections_2 s ++ k).
Proof.
  intros Hb Hall.
  apply paragraph_loop_app_ok in Hall as (s1 & Hb1 & Hafter).
  rewrite Hb in Hb1. injection Hb1 as <-. clear Hb.
  revert s Hafter. induction after as [|para rest IH]; intros s Hafter.
  - injection Hafter as <-.
    repeat split; exists []; now rewrite app_nil_r.
  - apply paragraph_loop_cons_ok in Hafter as (s1 & Hbody & Hrest).
    destruct (loop_body_grows s s1 para Hbody) as ([k0 E0] & [k1 E1] & [k2 E2]).
    destruct (IH s1 Hrest) as ([j0 F0] & [j1 F1] & [j2 F2]).
    rewrite F0, F1, F2, E0, E1, E2.
    repeat split; eexists; now rewrite <- app_assoc.
Qed.

End SplitterFacts.

(** * Further properties of the FAQ pairing *)

Module FaqFacts.
Import FaqPairer.

Lemma reply_twice (st : list FaqPair * option str) (a1 a2 : str) :
  pair_step (pair_step st (reply a1)) (reply a2) = pair_step st (reply a1).
Proof.
  destruct st as [pairs cq]. simpl.
  destruct (pending cq) as [q|] eqn:Hp; simpl; [reflexivity|].
  now rewrite Hp.
Qed.

(** Of two answers in a row only the first can be paired: the second is
    dropped, so an answer that runs over several paragraphs keeps its
    first paragraph only. *)
Theorem second_answer_dropped (l1 l2 : list FaqItem) (a1 a2 : str) :
  group_faqs (l1 ++ reply a1 :: reply a2 :: l2)
  = group_faqs (l1 ++ reply a1 :: l2).
Proof.
  rewrite !group_faqs_unfold, !fold_left_app.
  cbn [fold_left]. now rewrite reply_twice.
Qed.

Lemma pairs_grow (items : list FaqItem) :
  forall st, exists k,
    fst (fold_left pair_step items st) = fst st ++ k.
Proof.
  induction items as [|item items IH]; intros st; cbn [fold_left].
  - exists []. now rewrite app_nil_r.
  - destruct (IH (pair_step st item)) as [k ->].
    destruct st as [pairs cq]. unfold pair_step.
    destruct (item_type item), (pending cq); simpl;
      rewrite <- ?app_assoc; eauto.
Qed.

(** A question directly followed by an answer always gives the pair of
    the two, whatever comes before and after. *)
Theorem question_with_answer_paired
    (l1 l2 : list FaqItem) (q a : str) :
  q <> [] ->
  In (mk_pair q a) (group_faqs (l1 ++ ask q :: reply a :: l2)).
Proof.
  intros Hq. rewrite group_faqs_unfold, fold_left_app. cbn [fold_left].
  destruct (fold_left pair_step l1 ([], None)) as [pairs cq].
  assert (Hstep : exists pairs',
            pair_step (pair_step (pairs, cq) (ask q)) (reply a)
            = (pairs' ++ [mk_pair q a], None)).
  { apply nonempty_true in Hq. unfold pair_step at 2. simpl.
    destruct (pending cq); simpl; rewrite Hq; eauto. }
  destruct Hstep as [pairs' ->].
  destruct (pairs_grow l2 (pairs' ++ [mk_pair q a], None)) as [k Hk].
  unfold finish_pairs.
  destruct (fold_left pair_step l2 (pairs' ++ [mk_pair q a], None))
    as [final cq'].
  simpl in Hk. subst final. simpl.
  assert (Hin : In (mk_pair q a) ((pairs' ++ [mk_pair q a]) ++ k)).
  { apply in_or_app. left. apply in_or_app. right. now left. }
  destruct (pending cq'); [apply in_or_app; now left|exact Hin].
Qed.

End FaqFacts.

(** * The upload handler *)

Module Upload.

(** [s.endswith(suffix)] *)
Definition endswith (suffix s : str) : bool := startswith (rev suffix) (rev s).

(** What [Document(path)] and its [paragraphs] give on the saved copy of
    an upload: an exception, observed by its [str], or the paragraphs. *)
Inductive Opened : Type :=
| OpenFails (message : str)
| Opens (paragraphs : list Paragraph).

(** An entry of [request.files]. *)
Record FileStorage : Type := {
  filename : str;
  document : Opened
}.

(** The JSON body of a response. *)
Inductive Body : Type :=
| ErrorBody (error : str)
| ResultBody (result : Result).

Record Response : Type := {
  body : Body;
  status : nat
}.

Section Handler.

(** [repr] of a string, as [str] of a KeyError shows its key. *)
Variable repr : str -> str.

(** [str(e)] *)
Definition exception_text (e : PyError) : str :=
  match e with KeyError key => repr key end.

(** Lines 183-202.  [tmp_name] is the name of the temporary file that
    [NamedTemporaryFile] creates, [files] is [request.files] and [paths]
    the set of the paths that exist; the result is the response and the
    paths that exist afterwards.  Creating the temporary file and saving
    the upload into it are taken to succeed. *)
Definition handle_upload (tmp_name : str) (files : gmap str FileStorage)
    (paths : gset str) : Response * gset str :=
  match files !! py "file" with
  | None => ({| body := ErrorBody (py "File missing"); status := 400 |}, paths)
  | Some uploaded =>
      if negb (endswith (py ".docx") (filename uploaded)) then
        ({| body := ErrorBody (py "Only .docx allowed"); status := 400 |}, paths)
      else
        (* NamedTemporaryFile(delete=False), uploaded.save *)
        let paths := {[tmp_name]} ∪ paths in
        (* the try block *)
        let outcome : str + Result :=
          match document uploaded with
          | OpenFails message => inl message
          | Opens paragraphs =>
              match docx_to_html_sections paragraphs with
              | Ok result => inr result
              | Raise e => inl (exception_text e)
              end
          end in
        (* finally *)
        let paths :=
          if decide (tmp_name ∈ paths) then paths ∖ {[tmp_name]} else paths in
        match outcome with
        | inl message =>
            ({| body := ErrorBody (py "Failed to parse: " ++ message);
                status := 500 |}, paths)
        | inr result => ({| body := ResultBody result; status := 200 |}, paths)
        end
  end.

Lemma startswith_spec (p s : str) :
  startswith p s = true <-> exists rest, s = p ++ rest.
Proof.
  revert s. induction p as [|x p IH]; intros s; simpl.
  - split; eauto.
  - destruct s as [|y s].
    + split; [discriminate|]. intros [rest ?]. discriminate.
    + rewrite andb_true_iff, N.eqb_eq, IH. split.
      * intros [-> [rest ->]]. eauto.
      * intros [rest [= -> ->]]. eauto.
Qed.

Lemma endswith_spec (suffix s : str) :
  endswith suffix s = true <-> exists stem, s = stem ++ suffix.
Proof.
  unfold endswith. rewrite startswith_spec. split.
  - intros [rest H]. exists (rev rest).
    rewrite <- (rev_involutive s), H, rev_app_distr, rev_involutive.
    reflexivity.
  - intros [stem ->]. exists (rev stem). apply rev_app_distr.
Qed.

(** The upload is turned away with status 400 exactly when the request
    has no file field or the file name does not end in .docx, the test
    being on the exact characters (an upper-case extension is refused);
    then nothing is written and the document is not looked at. *)
Theorem upload_rejected_iff (tmp_name : str) (files : gmap str FileStorage)
    (paths : gset str) :
  (status (handle_upload tmp_name files paths).1 = 400%nat <->
   files !! py "file" = None
   \/ exists uploaded,
        files !! py "file" = Some uploaded
        /\ ~ exists stem, filename uploaded = stem ++ py ".docx")
  /\ (status (handle_upload tmp_name files paths).1 = 400%nat ->
      (handle_upload tmp_name files paths).2 = paths
      /\ exists message,
           body (handle_upload tmp_name files paths).1 = ErrorBody message).
Proof.
  unfold handle_upload.
  destruct (files !! py "file") as [uploaded|] eqn:Hf.
  2:{ split; [split; auto|]. simpl. eauto. }
  destruct (endswith (py ".docx") (filename uploaded)) eqn:He; simpl.
  - apply endswith_spec in He.
    assert (Hno : forall outcome : str + Result,
              status (match outcome with
                      | inl message =>
                          ({| body := ErrorBody (py "Failed to parse: " ++ message);
                              status := 500 |},
                           if decide (tmp_name ∈ ({[tmp_name]} ∪ paths : gset str))
                           then ({[tmp_name]} ∪ paths) ∖ {[tmp_name]}
                           else {[tmp_name]} ∪ paths)
                      | inr result =>
                          ({| body := ResultBody result; status := 200 |},
                           if decide (tmp_name ∈ ({[tmp_name]} ∪ paths : gset str))
                           then ({[tmp_name]} ∪ paths) ∖ {[tmp_name]}
                           else {[tmp_name]} ∪ paths)
                      end).1 <> 400%nat).
    { intros [m|r]; simpl; discriminate. }
    split; [split|].
    + intros H. exfalso. exact (Hno _ H).
    + intros [?|(u & [= <-] & Hn)]; [discriminate|]. contradiction.
    + intros H. exfalso. exact (Hno _ H).
  - split; [split; [intros _|reflexivity]|simpl; eauto].
    right. exists uploaded. split; [reflexivity|].
    intros Hs. apply endswith_spec in Hs. congruence.
Qed.

(** The handler leaves the set of existing paths as it found it: the
    temporary file is gone after a successful conversion and after a
    failed one, and no other path is touched. *)
Theorem upload_leaves_no_file (tmp_name : str) (files : gmap str FileStorage)
    (paths : gset str) :
  tmp_name ∉ paths ->
  (handle_upload tmp_name files paths).2 = paths.
Proof.
  intros Hfresh. unfold handle_upload.
  destruct (files !! py "file") as [uploaded|]; [|reflexivity].
  destruct (negb (endswith (py ".docx") (filename uploaded))); [reflexivity|].
  assert (Hclean :
            (if decide (tmp_name ∈ ({[tmp_name]} ∪ paths : gset str))
             then ({[tmp_name]} ∪ paths) ∖ {[tmp_name]}
             else {[tmp_name]} ∪ paths) = paths).
  { destruct (decide (tmp_name ∈ ({[tmp_name]} ∪ paths : gset str)))
      as [_|Hout].
    - apply set_eq. intros x.
      rewrite elem_of_difference, elem_of_union, !elem_of_singleton.
      split; [tauto|]. intros Hx. split; [now right|]. congruence.
    - exfalso. apply Hout. apply elem_of_union. left.
      now apply elem_of_singleton. }
  simpl. rewrite Hclean.
  destruct (document uploaded) as [m|ps]; [reflexivity|].
  destruct (docx_to_html_sections ps); reflexivity.
Qed.

(** The response is a success exactly when the upload is accepted, its
    document opens and the conversion returns; its body is then the
    result of the conversion.  An exception of the conversion, such as
    the KeyError of a relationship id that is no related part, gives
    status 500 and never a partial result. *)
Theorem upload_succeeds_iff (tmp_name : str) (files : gmap str FileStorage)
    (paths : gset str) (r : Result) :
  (handle_upload tmp_name files paths).1
  = {| body := ResultBody r; status := 200 |} <->
  exists uploaded stem paragraphs,
    files !! py "file" = Some uploaded
    /\ filename uploaded = stem ++ py ".docx"
    /\ document uploaded = Opens paragraphs
    /\ docx_to_html_sections paragraphs = Ok r.
Proof.
  unfold handle_upload.
  destruct (files !! py "file") as [uploaded|] eqn:Hf.
  2:{ simpl. split; [discriminate|]. intros (? & ? & ? & ? & _). discriminate. }
  destruct (endswith (py ".docx") (filename uploaded)) eqn:He; simpl.
  - apply endswith_spec in He as [stem Hstem].
    destruct (document uploaded) as [m|ps] eqn:Hd.
    + simpl. split; [discriminate|].
      intros (u & ? & ? & [= <-] & _ & Hd' & _). congruence.
    + destruct (docx_to_html_sections ps) as [r'|e] eqn:Hc; simpl.
      * split.
        -- intros [= ->]. exists uploaded, stem, ps. auto.
        -- intros (u & ? & ps' & [= <-] & _ & Hd' & Hc').
           rewrite Hd in Hd'. injection Hd' as <-. congruence.
      * split; [discriminate|].
        intros (u & ? & ps' & [= <-] & _ & Hd' & Hc').
        rewrite Hd in Hd'. injection Hd' as <-. congruence.
  - split; [discriminate|].
    intros (u & stem & ? & [= <-] & Hstem & _).
    assert (endswith (py ".docx") (filename uploaded) = true)
      by (apply endswith_spec; eauto).
    congruence.
Qed.

End Handler.

End Upload.

(** ** The further properties at sample inputs *)

Module MoreInstances.
Import Samples SectionSplitter SplitterFacts Instances.

(** A run of blanks, and the same inside a resolved hyperlink. *)
Definition blank_run : Run := text_run (py "  ") false.
Definition blank_link : Run := link_run (py "  ") (Some (py "rId1")) site_parts.

Lemma run_output_empty_iff_witness :
  (strip (run_text blank_run) = [] /\ ~ exists url, RunFacts.links_to blank_run url)
  /\ run_to_html blank_link
     = Ok (py "<a href=" ++ dq ++ py "https://example.com" ++ dq
             ++ py " target=" ++ dq ++ py "_blank" ++ dq ++ py "></a>").
Proof.
  split; [|vm_compute; reflexivity].
  refine (proj1 (RunFacts.run_output_empty_iff blank_run [] _) eq_refl).
  vm_compute. reflexivity.
Defined.

Lemma escape_injective_witness : py "a<b&c" = [97; 60; 98; 38; 99].
Proof.
  refine (EscapeFacts.escape_injective (py "a<b&c") [97; 60; 98; 38; 99] _).
  vm_compute. reflexivity.
Defined.

Lemma para_to_html_result_witness :
  exists parts,
    mapM run_to_html (para_runs bullet) = Ok parts
    /\ strip (concat parts) <> []
    /\ exists style,
         bullet_item = py "<li " ++ style ++ py ">" ++ concat parts ++ py "</li>".
Proof.
  destruct (ParagraphFacts.para_to_html_result bullet bullet_item (Some ul))
    as (parts & Hparts & [(_ & Hempty & _)|(Hne & _ & Hshape)]).
  - vm_compute. reflexivity.
  - discriminate.
  - exists parts. auto.
Defined.

Lemma section_counter_counts_sentinels_witness :
  current_section (locals_after [bullet; marker]) = 1%nat
  /\ current_section (locals_after ([bullet; marker] ++ [plain "y"; marker]))
     = (current_section (locals_after [bullet; marker]) + 1)%nat.
Proof.
  destruct (section_counter_counts_sentinels [bullet; marker]
              [plain "y"; marker] (locals_after [bullet; marker])
              (locals_after ([bullet; marker] ++ [plain "y"; marker])))
    as (H1 & H2 & _).
  - vm_compute. reflexivity.
  - vm_compute. reflexivity.
  - split; [exact H1|exact H2].
Defined.

Lemma blank_document_empty_result_witness :
  docx_to_html_sections [plain "  "; marker; para_of []; marker; marker]
  = Ok {| head := []; text := []; faq := [] |}.
Proof.
  apply blank_document_empty_result.
  repeat constructor; (left; vm_compute; reflexivity)
                      || (right; vm_compute; reflexivity).
Defined.

Lemma head_and_text_settled_witness :
  head (render ([plain "h"; marker; bullet; marker] ++ [strong "Q"; plain "A"]))
  = head (finish (locals_after [plain "h"; marker; bullet; marker]))
  /\ text (render ([plain "h"; marker; bullet; marker]
                    ++ [strong "Q"; plain "A"]))
     = text (finish (locals_after [plain "h"; marker; bullet; marker])).
Proof.
  apply (head_and_text_settled [plain "h"; marker; bullet; marker]
           [strong "Q"; plain "A"]
           (locals_after [plain "h"; marker; bullet; marker])).
  - vm_compute. reflexivity.
  - vm_compute. lia.
  - vm_compute. reflexivity.
Defined.

Lemma body_text_entries_well_formed_witness :
  (list_buffer (locals_after [bullet; marker; plain "y"; bullet]) = []
   <-> list_type (locals_after [bullet; marker; plain "y"; bullet]) = None)
  /\ Forall text_entry
       (final_flush (locals_after [bullet; marker; plain "y"; bullet])).
Proof.
  apply (body_text_entries_well_formed [bullet; marker; plain "y"; bullet]).
  vm_compute. reflexivity.
Defined.

(** A paragraph in a numbered style. *)
Definition numbered : Paragraph :=
  {| para_text := py "one"; para_runs := [text_run (py "one") false];
     para_style_name := py "List Number"; para_pPr := None |}.

Lemma consecutive_items_grouped_witness :
  text (render (marker :: [bullet; bullet] ++ [numbered] ++ marker :: []))
  = (py "<ul>" ++ concat (items_of [bullet; bullet]) ++ py "</ul>")
    ++ (py "<ol>" ++ concat (items_of [numbered]) ++ py "</ol>").
Proof.
  assert (Hb : is_item ul bullet)
    by (split; [vm_compute; reflexivity|eexists; vm_compute; reflexivity]).
  assert (Hn : is_item ol numbered)
    by (split; [vm_compute; reflexivity|eexists; vm_compute; reflexivity]).
  refine (consecutive_items_grouped ul ol [bullet; bullet] [numbered] []
            marker marker
            (render (marker :: [bullet; bullet] ++ [numbered] ++ marker :: []))
            _ _ _ _ _ _ _ _).
  - discriminate.
  - repeat constructor; apply Hb.
  - discriminate.
  - repeat constructor; apply Hn.
  - discriminate.
  - vm_compute. reflexivity.
  - vm_compute. reflexivity.
  - vm_compute. reflexivity.
Defined.

Lemma outputs_only_grow_witness :
  (exists k, sections_0 (locals_after ([plain "h"] ++ [marker; plain "y"]))
             = sections_0 (locals_after [plain "h"]) ++ k)
  /\ (exists k, sections_1 (locals_after ([plain "h"] ++ [marker; plain "y"]))
                = sections_1 (locals_after [plain "h"]) ++ k)
  /\ (exists k, sections_2 (locals_after ([plain "h"] ++ [marker; plain "y"]))
                = sections_2 (locals_after [plain "h"]) ++ k).
Proof.
  apply (outputs_only_grow [plain "h"] [marker; plain "y"]).
  - vm_compute. reflexivity.
  - vm_compute. reflexivity.
Defined.

Lemma question_with_answer_paired_witness :
  In (FaqPairer.mk_pair (py "Q") (py "A"))
    (group_faqs ([FaqPairer.reply (py "x")]
                   ++ FaqPairer.ask (py "Q") :: FaqPairer.reply (py "A")
                   :: [FaqPairer.ask (py "Z")])).
Proof.
  apply (FaqFacts.question_with_answer_paired [FaqPairer.reply (py "x")]
           [FaqPairer.ask (py "Z")] (py "Q") (py "A")).
  discriminate.
Defined.

(** An upload whose document holds a dangling relationship id. *)
Definition quoted (key : str) : str := py "'" ++ key ++ py "'".

Definition broken_upload : gmap str Upload.FileStorage :=
  {[ py "file" :=
       {| Upload.filename := py "report.docx";
          Upload.document := Upload.Opens [para_of [dangling_run]] |} ]}.

Lemma upload_leaves_no_file_witness :
  (Upload.handle_upload quoted (py "/tmp/tmpa1.docx") broken_upload ∅).2 = ∅.
Proof.
  apply (Upload.upload_leaves_no_file quoted (py "/tmp/tmpa1.docx")
           broken_upload ∅).
  apply not_elem_of_empty.
Defined.

(** A paragraph whose second run carries a dangling relationship id. *)
Definition half_broken : Paragraph :=
  para_of [text_run (py "a") false; dangling_run; text_run (py "b") false].

Lemma para_to_html_raises_with_first_run_witness :
  para_to_html half_broken = Raise (KeyError (py "rId9")).
Proof.
  apply (ParagraphFacts.para_to_html_raises_with_first_run half_broken
           [text_run (py "a") false] [text_run (py "b") false] dangling_run).
  - reflexivity.
  - constructor; [|constructor]. eexists. vm_compute. reflexivity.
  - vm_compute. reflexivity.
Defined.

Lemma conversion_returns_only_if_all_render_witness :
  Forall (fun p => is_sentinel p = true \/ renders p)
    [bullet; marker; plain "y"; marker; marker; plain "D"]
  /\ docx_to_html_sections [marker; marker; marker; half_broken]
     = Raise (KeyError (py "rId9")).
Proof.
  split; [|vm_compute; reflexivity].
  apply (conversion_returns_only_if_all_render
           [bullet; marker; plain "y"; marker; marker; plain "D"]
           (render [bullet; marker; plain "y"; marker; marker; plain "D"])).
  vm_compute. reflexivity.
Defined.

End MoreInstances.
